(** * Batch generation for labeling tasks (pyannote.audio.labeling.tasks.base)

    A shallow embedding of [LabelingTaskGenerator] and [LabelingTask].

    Conventions of the embedding:
    - Python floats (durations, time stamps, probabilities) are idealised
      as exact rationals [Q], which is enough for the order and the sign
      of what the code computes; where the value itself is at stake
      ([batches_per_epoch]) the computation is also given in binary64,
      with the rounding of every operation. Python ints are [Z] or [nat].
    - A raised exception is a value [Err e] of the [result] type; the
      monadic bind propagates it like Python does.
    - A [dict] is an association list in insertion order, as iterating a
      Python dict (Python >= 3.7) visits keys in insertion order and
      re-assigning a key keeps its position.
    - Collaborators that live outside the file (pyannote.core cropping,
      the label rasterizer, numpy's random source, torch) are section
      variables or explicit inputs. *)

From Stdlib Require Import QArith Qround Qminmax Qabs ZArith List String Ascii Bool
  Lia Lqa Arith Sorted Permutation SpecFloat.
Import ListNotations.

Local Open Scope string_scope.
Local Open Scope list_scope.
Local Open Scope Q_scope.

(** ** Exceptions and the error monad *)

Inductive exception : Type :=
| KeyError (key : string)
| ValueError (msg : string)
| NotImplementedError (msg : string)
| AttributeError (obj attr : string)
| UnboundLocalError (name : string)
| ZeroDivisionError
| OverflowError (msg : string)
| ExternalError (origin : string).

Inductive result (A : Type) : Type :=
| Ok (a : A)
| Err (e : exception).

Arguments Ok {A} a.
Arguments Err {A} e.

Definition bind {A B : Type} (r : result A) (k : A -> result B) : result B :=
  match r with
  | Ok a => k a
  | Err e => Err e
  end.

Notation "x <- c ;; k" := (bind c (fun x => k))
  (at level 61, c at next level, right associativity).

(** Python's true division [a / b] on built-in numbers. *)
Definition py_truediv (a b : Q) : result Q :=
  if Qeq_bool b 0 then Err ZeroDivisionError else Ok (a / b).

(** ** Segments and timelines (pyannote.core data, as described in the
       data model: a segment is a time interval with
       duration = end - start) *)

Record Segment : Type := mkSegment { start : Q; end_ : Q }.

Definition seg_duration (s : Segment) : Q := end_ s - start s.

Definition Timeline : Type := list Segment.

(** An annotation maps time segments to labels. *)
Definition Annotation : Type := list (Segment * string).

Definition annotation_labels (a : Annotation) : list string := map snd a.

(** ** The generator object *)

Record FeatureExtraction : Type := mkFeatureExtraction {
  is_precomputed : bool;   (* isinstance(feature_extraction, Precomputed) *)
  use_memmap : bool
}.

Record LabelingTaskGenerator : Type := mkGenerator {
  feature_extraction : FeatureExtraction;
  duration : Q;
  batch_size : Z;
  per_epoch : Q;
  parallel : Z;
  exhaustive : bool;
  shuffle : bool
}.

(** ** batches_per_epoch *)

Definition duration_per_epoch (g : LabelingTaskGenerator) : Q :=
  per_epoch g * 24 * 60 * 60.

Definition duration_per_batch (g : LabelingTaskGenerator) : Q :=
  duration g * inject_Z (batch_size g).

(** [int(np.ceil(duration_per_epoch / duration_per_batch))], in exact
    arithmetic. *)
Definition batches_per_epoch (g : LabelingTaskGenerator) : result Z :=
  q <- py_truediv (duration_per_epoch g) (duration_per_batch g) ;;
  Ok (Qceiling q).

(** The mathematical ceiling, stated independently of [Qceiling]:
    [n] is the least integer that is not below [x]. *)
Definition is_ceiling (x : Q) (n : Z) : Prop :=
  x <= inject_Z n /\ forall m : Z, x <= inject_Z m -> (n <= m)%Z.

Definition default_generator : LabelingTaskGenerator :=
  mkGenerator (mkFeatureExtraction false false) (32 # 10) 32 1 1 false false.

(** *** batches_per_epoch in binary64 *)

(** A Python number: an [int], or a [float], which is a binary64 value
    (53 bits of precision, exponents below 1024). *)
Inductive number : Type :=
| Int (z : Z)
| Float (x : spec_float).

Definition is_infinite (x : spec_float) : bool :=
  match x with
  | S754_infinity _ => true
  | _ => false
  end.

Definition is_zero (x : spec_float) : bool :=
  match x with
  | S754_zero _ => true
  | _ => false
  end.

(** [float(z)]: the nearest binary64 value (ties to even), or
    [OverflowError]. *)
Definition float_of_int (z : Z) : result spec_float :=
  let x := binary_normalize 53 1024 z 0 false in
  if is_infinite x
  then Err (OverflowError "int too large to convert to float")
  else Ok x.

Definition to_float (a : number) : result spec_float :=
  match a with
  | Int z => float_of_int z
  | Float x => Ok x
  end.

(** [a * b]: exact on two ints, rounded to the nearest binary64 value
    as soon as one operand is a float. *)
Definition number_mul (a b : number) : result number :=
  match a, b with
  | Int x, Int y => Ok (Int (x * y))
  | _, _ =>
      x <- to_float a ;;
      y <- to_float b ;;
      Ok (Float (SFmul 53 1024 x y))
  end.

(** An int as the quotient of integers sees it: all its bits. *)
Definition exact_int (z : Z) : spec_float :=
  match z with
  | Z0 => S754_zero false
  | Zpos m => S754_finite false m 0
  | Zneg m => S754_finite true m 0
  end.

(** [a / b]: always a float, the nearest binary64 value to the quotient;
    [ZeroDivisionError] on a zero divisor. *)
Definition number_truediv (a b : number) : result spec_float :=
  match a, b with
  | Int x, Int y =>
      if (y =? 0)%Z then Err ZeroDivisionError
      else
        let q := SFdiv 53 1024 (exact_int x) (exact_int y) in
        if is_infinite q
        then Err (OverflowError "integer division result too large for a float")
        else Ok q
  | _, _ =>
      x <- to_float a ;;
      y <- to_float b ;;
      if is_zero y then Err ZeroDivisionError
      else Ok (SFdiv 53 1024 x y)
  end.

(** The rational that a finite binary64 value stands for. *)
Definition float_value (x : spec_float) : option Q :=
  match x with
  | S754_zero _ => Some 0
  | S754_finite s m e =>
      Some (inject_Z (if s then Z.neg m else Z.pos m) * inject_Z 2 ^ e)
  | _ => None
  end.

Definition number_value (a : number) : option Q :=
  match a with
  | Int z => Some (inject_Z z)
  | Float x => float_value x
  end.

(** [int(np.ceil(x))] *)
Definition int_ceil (x : spec_float) : result Z :=
  match float_value x with
  | Some v => Ok (Qceiling v)
  | None =>
      match x with
      | S754_nan => Err (ValueError "cannot convert float NaN to integer")
      | _ => Err (OverflowError "cannot convert float infinity to integer")
      end
  end.

(** [self.per_epoch * 24 * 60 * 60] and [self.duration * self.batch_size] *)
Definition duration_per_epoch64 (per_epoch : number) : result number :=
  a <- number_mul per_epoch (Int 24) ;;
  b <- number_mul a (Int 60) ;;
  number_mul b (Int 60).

Definition duration_per_batch64 (duration : number) (batch_size : Z)
  : result number :=
  number_mul duration (Int batch_size).

(** The property as Python computes it, for a generator whose
    [per_epoch] and [duration] are the given numbers. *)
Definition batches_per_epoch64 (per_epoch duration : number) (batch_size : Z)
  : result Z :=
  duration_per_epoch <- duration_per_epoch64 per_epoch ;;
  duration_per_batch <- duration_per_batch64 duration batch_size ;;
  q <- number_truediv duration_per_epoch duration_per_batch ;;
  int_ceil q.

(** The float [0.3]: the binary64 value nearest to three tenths. *)
Definition three_tenths : spec_float :=
  S754_finite false 5404319552844595 (-54).

(** ** Python containers *)

(** [dict] with string keys, in insertion order. *)
Definition dict (V : Type) : Type := list (string * V).

Fixpoint dict_get {V : Type} (d : dict V) (k : string) : option V :=
  match d with
  | [] => None
  | (k', v) :: r => if String.eqb k' k then Some v else dict_get r k
  end.

(** [d[k]], raising [KeyError] on a missing key. *)
Definition dict_getitem {V : Type} (d : dict V) (k : string) : result V :=
  match dict_get d k with
  | Some v => Ok v
  | None => Err (KeyError k)
  end.

(** [d[k] = v]: an existing key keeps its position, a new key goes last. *)
Fixpoint dict_set {V : Type} (d : dict V) (k : string) (v : V) : dict V :=
  match d with
  | [] => [(k, v)]
  | (k', v') :: r =>
      if String.eqb k' k then (k, v) :: r else (k', v') :: dict_set r k v
  end.

(** [list(d)]: the keys, in insertion order. *)
Definition dict_keys {V : Type} (d : dict V) : list string := map fst d.

(** [s.add(x)] on a set of strings kept as a duplicate-free list. *)
Fixpoint set_add (x : string) (s : list string) : list string :=
  match s with
  | [] => [x]
  | y :: r => if String.eqb y x then y :: r else y :: set_add x r
  end.

(** [s.update(xs)] *)
Definition set_update (xs : list string) (s : list string) : list string :=
  fold_left (fun acc x => set_add x acc) xs s.

Fixpoint insert_sorted (x : string) (l : list string) : list string :=
  match l with
  | [] => [x]
  | y :: r => if String.leb x y then x :: y :: r else y :: insert_sorted x r
  end.

(** [sorted(s)] *)
Definition sorted (s : list string) : list string :=
  fold_right insert_sorted [] s.

(** [sum(xs)] and [np.sum(xs)]: left to right, from 0. *)
Definition sum (xs : list Q) : Q := fold_left Qplus xs 0.

(** Monadic left fold: a [for] loop whose body may raise. *)
Fixpoint foldM {A B : Type} (f : A -> B -> result A) (l : list B) (a : A)
  : result A :=
  match l with
  | [] => Ok a
  | b :: r => a' <- f a b ;; foldM f r a'
  end.

Fixpoint mapM {A B : Type} (f : A -> result B) (l : list A) : result (list B) :=
  match l with
  | [] => Ok []
  | a :: r => b <- f a ;; bs <- mapM f r ;; Ok (b :: bs)
  end.

(** ** Corpus indexing: [initialize] *)

(** A protocol file, with what the pyannote.database helpers read from it:
    [get_unique_identifier], ['database'], [get_audio_duration],
    [get_annotated] and ['annotation']. *)
Record ProtocolFile : Type := mkFile {
  unique_identifier : string;
  database : string;
  audio_duration : Q;
  annotated : Timeline;
  annotation : Annotation
}.

Definition get_unique_identifier (f : ProtocolFile) : string := unique_identifier f.
Definition get_audio_duration (f : ProtocolFile) : Q := audio_duration f.
Definition get_annotated (f : ProtocolFile) : Timeline := annotated f.

(** [current_file['annotated'] = v] and [current_file['annotation'] = v] *)
Definition set_annotated (f : ProtocolFile) (v : Timeline) : ProtocolFile :=
  mkFile (unique_identifier f) (database f) (audio_duration f) v (annotation f).

Definition set_annotation (f : ProtocolFile) (v : Annotation) : ProtocolFile :=
  mkFile (unique_identifier f) (database f) (audio_duration f) (annotated f) v.

(** A protocol subset: the files that [getattr(protocol, subset)()] yields,
    the same on every call. *)
Definition Protocol : Type := list ProtocolFile.

Definition double_quote : string := String (ascii_of_nat 34) EmptyString.

Definition memmap_warning : string :=
  ("Loading all precomputed features in memory. Set "
     ++ double_quote ++ "use_memmap" ++ double_quote
     ++ " to True if you run out of memory.")%string.

(** [[s for s in timeline if s.duration > self.duration]] *)
Definition long_enough (g : LabelingTaskGenerator) (s : Segment) : bool :=
  negb (Qle_bool (seg_duration s) (duration g)).

Definition eligible_segments (g : LabelingTaskGenerator) (t : Timeline)
  : list Segment :=
  filter (long_enough g) t.

Section Indexing.

(** Collaborators: the label raster type, [Timeline.crop] and
    [Annotation.crop] in ['intersection'] mode, and [one_hot_encoding]
    for the generator's frame grid, which may raise (it does on a label
    that is not in the vocabulary it is given). *)
Variable Raster : Type.
Variable crop : Timeline -> Segment -> Timeline.
Variable crop_annotation : Annotation -> Segment -> Annotation.
Variable one_hot_encoding : Annotation -> Timeline -> list string -> result Raster.

(** One value of [data_]. The key ['y'] is absent until the second loop. *)
Record Datum : Type := mkDatum {
  segments : list Segment;
  datum_duration : Q;
  current_file : ProtocolFile;
  y : option Raster
}.

Definition set_y (d : Datum) (r : Raster) : Datum :=
  mkDatum (segments d) (datum_duration d) (current_file d) (Some r).

(** The attributes [initialize] leaves on the generator. *)
Record Index : Type := mkIndex {
  data_ : dict Datum;
  databases_ : list string;
  labels_ : list string
}.

(** Local state of the first loop of [initialize]. *)
Record Scan : Type := mkScan {
  scan_data : dict Datum;
  scan_labels : list string;
  scan_databases : list string;
  scan_warnings : list string
}.

Definition postprocess_y (Y : Raster) : Raster := Y.

(** The file once annotation and annotated are cropped to the audio. *)
Definition cropped (f : ProtocolFile) : ProtocolFile :=
  let support := mkSegment 0 (get_audio_duration f) in
  let f1 := set_annotated f (crop (get_annotated f) support) in
  set_annotation f1 (crop_annotation (annotation f1) support).

(** Body of the first loop. *)
Definition scan_file (g : LabelingTaskGenerator) (st : Scan)
           (file : ProtocolFile) : Scan :=
  let current := cropped file in
  let databases := set_add (database current) (scan_databases st) in
  let labels :=
    set_update (annotation_labels (annotation current)) (scan_labels st) in
  let warnings :=
    if is_precomputed (feature_extraction g)
       && negb (use_memmap (feature_extraction g))
    then scan_warnings st ++ [memmap_warning]
    else scan_warnings st in
  let segs := eligible_segments g (annotated current) in
  match segs with
  | [] => (* continue *)
      mkScan (scan_data st) labels databases warnings
  | _ :: _ =>
      let total := sum (map seg_duration segs) in
      let datum := mkDatum segs total current None in
      let uri := get_unique_identifier current in
      mkScan (dict_set (scan_data st) uri datum) labels databases warnings
  end.

Definition scan_files (g : LabelingTaskGenerator) (p : Protocol) : Scan :=
  fold_left (scan_file g) p (mkScan [] [] [] []).

(** Body of the second loop: [self.data_[uri]['y'] = ...]. *)
Definition attach_y (labels : list string) (data : dict Datum)
           (file : ProtocolFile) : result (dict Datum) :=
  raster <-
    one_hot_encoding (annotation file) (get_annotated file) labels ;;
  let uri := get_unique_identifier file in
  d <- dict_getitem data uri ;;
  Ok (dict_set data uri (set_y d (postprocess_y raster))).

Definition initialize (g : LabelingTaskGenerator) (p : Protocol)
  : result Index :=
  let st := scan_files g p in
  let databases := sorted (scan_databases st) in
  let labels := sorted (scan_labels st) in
  data <- foldM (attach_y labels) p (scan_data st) ;;
  Ok (mkIndex data databases labels).

(** ** Random sampling *)

(** What [random_samples] computes before its loop. *)
Record SamplingTable : Type := mkTable {
  uris : list string;
  durations : list Q;
  probabilities : list Q
}.

Definition sampling_table (data : dict Datum) : result SamplingTable :=
  let us := dict_keys data in
  ds <- mapM (fun uri => d <- dict_getitem data uri ;; Ok (datum_duration d))
             us ;;
  let total := sum ds in
  Ok (mkTable us ds (map (fun d => d / total) ds)).

(** The outcome of the three random choices of one iteration:
    the index returned by [np.random.choice], the segment picked by
    [random_segment], and the offset of the sub-segment picked by
    [random_subsegment] inside that segment. *)
Record Draw : Type := mkDraw {
  file_choice : nat;
  segment_choice : nat;
  offset : Q
}.

(** A sample, identified by the file and the window it is cut from. *)
Record Sample : Type := mkSample {
  sample_file : ProtocolFile;
  sample_raster : option Raster;
  sequence : Segment
}.

Definition random_sample (g : LabelingTaskGenerator) (data : dict Datum)
           (t : SamplingTable) (c : Draw) : result Sample :=
  match nth_error (uris t) (file_choice c) with
  | None => Err (ExternalError "np.random.choice")
  | Some uri =>
      datum <- dict_getitem data uri ;;
      match nth_error (segments datum) (segment_choice c) with
      | None => Err (ExternalError "random_segment")
      | Some segment =>
          let s := start segment + offset c in
          Ok (mkSample (current_file datum) (y datum)
                       (mkSegment s (s + duration g)))
      end
  end.

End Indexing.

Arguments segments {Raster} d.
Arguments datum_duration {Raster} d.
Arguments current_file {Raster} d.
Arguments y {Raster} d.
Arguments data_ {Raster} i.
Arguments databases_ {Raster} i.
Arguments labels_ {Raster} i.
Arguments scan_data {Raster} s.
Arguments scan_labels {Raster} s.
Arguments scan_databases {Raster} s.
Arguments scan_warnings {Raster} s.
Arguments sampling_table {Raster} data.
Arguments random_sample {Raster} g data t c.

(** Reference collaborators used to run the index on concrete corpora:
    intersection of a timeline with a support segment, keeping the
    non-empty pieces, and a label raster that only records the
    vocabulary it was built for, and that cannot be built for an
    annotation with a label outside that vocabulary. *)
Definition seg_inter (a b : Segment) : Segment :=
  mkSegment (Qmax (start a) (start b)) (Qmin (end_ a) (end_ b)).

Definition nonempty (s : Segment) : bool :=
  negb (Qle_bool (end_ s) (start s)).

Definition crop_intersection (t : Timeline) (support : Segment) : Timeline :=
  filter nonempty (map (seg_inter support) t).

Definition crop_annotation_intersection (a : Annotation) (support : Segment)
  : Annotation :=
  filter (fun p => nonempty (fst p))
         (map (fun p => (seg_inter support (fst p), snd p)) a).

Fixpoint unknown_label (labels : list string) (found : list string)
  : option string :=
  match found with
  | [] => None
  | l :: rest =>
      if existsb (String.eqb l) labels then unknown_label labels rest
      else Some l
  end.

Definition vocabulary_raster (a : Annotation) (_ : Timeline)
           (labels : list string) : result (list string) :=
  match unknown_label labels (annotation_labels a) with
  | Some l => Err (ValueError ("'" ++ l ++ "' is not in list"))
  | None => Ok labels
  end.

Definition initialize_ref := initialize (list string) crop_intersection
  crop_annotation_intersection vocabulary_raster.

(** Two recordings: ten seconds fully annotated, and a short one whose
    only annotated region lasts two seconds. *)
Definition long_file : ProtocolFile :=
  mkFile "db/long" "db" 10 [mkSegment 0 10]
         [(mkSegment 1 4, "alice"); (mkSegment 5 9, "bob")].

Definition short_file : ProtocolFile :=
  mkFile "db/short" "db" 2 [mkSegment 0 2] [(mkSegment 0 1, "alice")].

Definition medium_file : ProtocolFile :=
  mkFile "db/medium" "db" 5 [mkSegment 0 5] [(mkSegment 2 3, "bob")].

(** A ten-second recording with a label that only occurs past the end
    of the audio. *)
Definition overrun_file : ProtocolFile :=
  mkFile "db/overrun" "db" 10 [mkSegment 0 10]
         [(mkSegment 1 4, "alice"); (mkSegment 12 13, "carol")].

(** ** Exhaustive sampling: [sliding_samples] *)






Section Sliding.

(** Collaborators: the [Timeline] constructor of pyannote.core and the
    permutation applied by [np.random.shuffle]. *)
Variable Raster : Type.
Variable make_timeline : list Segment -> Timeline.
Variable np_random_shuffle : list (Sample Raster) -> list (Sample Raster).


End Sliding.

(** ** The batch stream: [__call__] *)

(** [len(generators)]: [parallel] background generators, or a single
    one when [parallel] is 0. *)
Definition n_generators (g : LabelingTaskGenerator) : nat :=
  if (parallel g =? 0)%Z then 1%nat else Z.to_nat (parallel g).

(** A yielded batch, named by the generator it comes from and by its
    rank in that generator's own stream. *)
Definition Served : Type := (nat * nat)%type.

(** [next(batches)] advances the generator it is called on. *)
Definition advance (i : nat) (cursors : nat -> nat) : nat -> nat :=
  fun j => if Nat.eqb j i then S (cursors j) else cursors j.

(** [for _ in range(batches_per_epoch): yield next(batches)] *)
Fixpoint serve_epoch (count : nat) (i : nat) (cursors : nat -> nat)
  : list Served * (nat -> nat) :=
  match count with
  | O => ([], cursors)
  | S c =>
      let (out, cursors') := serve_epoch c i (advance i cursors) in
      ((i, cursors i) :: out, cursors')
  end.

(** [for batches in generators: ...] *)
Fixpoint serve_round (generators : list nat) (bpe : nat) (cursors : nat -> nat)
  : list Served * (nat -> nat) :=
  match generators with
  | [] => ([], cursors)
  | i :: rest =>
      let (out, cursors') := serve_epoch bpe i cursors in
      let (out', cursors'') := serve_round rest bpe cursors' in
      (out ++ out', cursors'')
  end.

(** The first [rounds] iterations of [while True: ...]. *)
Fixpoint serve_rounds (rounds : nat) (n : nat) (bpe : nat) (cursors : nat -> nat)
  : list Served * (nat -> nat) :=
  match rounds with
  | O => ([], cursors)
  | S r =>
      let (out, cursors') := serve_round (seq 0 n) bpe cursors in
      let (out', cursors'') := serve_rounds r n bpe cursors' in
      (out ++ out', cursors'')
  end.

Definition served (rounds n bpe : nat) : list Served :=
  fst (serve_rounds rounds n bpe (fun _ => O)).

(** [__call__], observed for [rounds] iterations of its final loop. *)
Definition call (Raster : Type) (crop : Timeline -> Segment -> Timeline)
           (crop_annotation : Annotation -> Segment -> Annotation)
           (one_hot_encoding : Annotation -> Timeline -> list string -> result Raster)
           (g : LabelingTaskGenerator) (p : Protocol) (rounds : nat)
  : result (list Served) :=
  _ <- initialize Raster crop crop_annotation one_hot_encoding g p ;;
  bpe <- batches_per_epoch g ;;
  Ok (served rounds (n_generators g) (Z.to_nat bpe)).

(** The epoch and the generator that serve the [k]-th batch of the
    stream, as the description of the assembler has them. *)
Definition epoch_of (bpe k : nat) : nat := (k / bpe)%nat.
Definition producer_of (n bpe k : nat) : nat := (epoch_of bpe k mod n)%nat.
Definition rank_of (n bpe k : nat) : nat :=
  (k / (n * bpe) * bpe + k mod bpe)%nat.

(** ** The labeling task *)

Inductive task_kind : Type :=
| TASK_CLASSIFICATION
| TASK_MULTI_LABEL_CLASSIFICATION
| TASK_REGRESSION
| TASK_OTHER.   (* any value that is none of the three constants *)

Definition task_type_msg : string :=
  "LabelingTask subclasses must implement task_type property".
Definition n_classes_msg : string :=
  "LabelingTask subclass must define `n_classes` property.".

Section Task.

(** Collaborators: torch tensors and numpy arrays, [torch.tensor],
    [Tensor.view] (after [contiguous]), [Tensor.to] and [to_numpy]. *)
Variables Tensor Array Loss : Type.
Variable torch_tensor : Array -> result Tensor.
Variable view : Tensor -> result Tensor.
Variable to_device : Tensor -> Tensor.
Variable to_numpy : Tensor -> Array.

Definition LossFunc : Type := Tensor -> Tensor -> Tensor -> result Loss.

Record Model : Type := mkModel {
  model_n_classes : Z;
  get_loss : LossFunc;
  forward : Tensor -> result Tensor
}.

Record Batch : Type := mkBatch { batch_X : Array; batch_y : Array }.

(** The properties a subclass may override. *)
Record TaskClass : Type := mkTaskClass {
  task_type : result task_kind;
  n_classes : result Z;
  weight : option Tensor
}.

(** [LabelingTask] itself. *)
Definition LabelingTask : TaskClass :=
  mkTaskClass (Err (NotImplementedError task_type_msg))
              (Err (NotImplementedError n_classes_msg))
              None.

(** [collections.deque] with an optional [maxlen]. *)
Record deque : Type := mkDeque { items : list Array; maxlen : option nat }.

Definition deque_append (d : deque) (x : Array) : deque :=
  match maxlen d with
  | None => mkDeque (items d ++ [x]) None
  | Some m =>
      let l := items d ++ [x] in
      mkDeque (skipn (List.length l - m)%nat l) (Some m)
  end.

(** The attributes the hooks set on the task. *)
Record TaskState : Type := mkTaskState {
  loss_func_ : option LossFunc;
  log_y_pred_ : option deque;
  log_y_true_ : option deque
}.

Definition fresh_task : TaskState := mkTaskState None None None.

Definition getattr {A : Type} (field : option A) (name : string) : result A :=
  match field with
  | Some a => Ok a
  | None => Err (AttributeError "LabelingTask" name)
  end.

Definition on_train_start (cls : TaskClass) (self : TaskState) (model : Model)
           (batches_per_epoch : option nat) : result TaskState :=
  n <- n_classes cls ;;
  if negb (model_n_classes model =? n)%Z
  then Err (ValueError "n_classes mismatch")
  else
    Ok (mkTaskState (Some (get_loss model))
                    (Some (mkDeque [] batches_per_epoch))
                    (Some (mkDeque [] batches_per_epoch))).

(** The branch of [batch_loss] on the task type: the reshaped output, the
    target when one is bound, and the updated task. *)
Definition prepare_target (cls : TaskClass) (self : TaskState) (batch : Batch)
           (fX : Tensor) (writer : bool)
  : result (Tensor * option Tensor * TaskState) :=
  kind <- task_type cls ;;
  match kind with
  | TASK_CLASSIFICATION =>
      y <- torch_tensor (batch_y batch) ;;
      target <- view y ;;
      _ <- n_classes cls ;;
      fX <- view fX ;;
      if writer then
        pred <- getattr (log_y_pred_ self) "log_y_pred_" ;;
        let pred := deque_append pred (to_numpy fX) in
        true_ <- getattr (log_y_true_ self) "log_y_true_" ;;
        let true_ := deque_append true_ (to_numpy y) in
        Ok (fX, Some target,
            mkTaskState (loss_func_ self) (Some pred) (Some true_))
      else Ok (fX, Some target, self)
  | TASK_MULTI_LABEL_CLASSIFICATION =>
      target <- torch_tensor (batch_y batch) ;;
      Ok (fX, Some target, self)
  | TASK_REGRESSION =>
      target <- torch_tensor (batch_y batch) ;;
      Ok (fX, Some target, self)
  | TASK_OTHER => Ok (fX, None, self)
  end.

Definition batch_loss (cls : TaskClass) (self : TaskState) (batch : Batch)
           (model : Model) (writer : bool) : result (Loss * TaskState) :=
  X <- torch_tensor (batch_X batch) ;;
  fX <- forward model X ;;
  prepared <- prepare_target cls self batch fX writer ;;
  let '(fX, target, self) := prepared in
  loss_func <- getattr (loss_func_ self) "loss_func_" ;;
  target <- match target with
            | Some t => Ok t
            | None => Err (UnboundLocalError "target")
            end ;;
  w <- match weight cls with
       | Some w => Ok (to_device w)
       | None => Err (AttributeError "NoneType" "to")
       end ;;
  loss <- loss_func fX target w ;;
  Ok (loss, self).

(** Modelled from the spec: the training-loop driver ([Trainer], which
    [LabelingTask] inherits from and which is not part of these sources).
    It calls the start hook once, then the per-batch loss on each batch
    in turn; an error of a hook is fatal and ends the run. The first
    component counts the calls to [batch_loss]. *)
Fixpoint train_batches (cls : TaskClass) (self : TaskState) (model : Model)
         (writer : bool) (batches : list Batch) (calls : nat)
  : nat * result TaskState :=
  match batches with
  | [] => (calls, Ok self)
  | b :: rest =>
      match batch_loss cls self b model writer with
      | Err e => (S calls, Err e)
      | Ok (_, self') => train_batches cls self' model writer rest (S calls)
      end
  end.

Definition fit (cls : TaskClass) (model : Model) (writer : bool)
           (batches_per_epoch : option nat) (batches : list Batch)
  : nat * result TaskState :=
  match on_train_start cls fresh_task model batches_per_epoch with
  | Err e => (O, Err e)
  | Ok self => train_batches cls self model writer batches O
  end.

End Task.

Arguments mkModel {Tensor Loss} model_n_classes get_loss forward.
Arguments model_n_classes {Tensor Loss} m.
Arguments get_loss {Tensor Loss} m.
Arguments forward {Tensor Loss} m.
Arguments mkBatch {Array} batch_X batch_y.
Arguments batch_X {Array} b.
Arguments batch_y {Array} b.
Arguments mkTaskClass {Tensor} task_type n_classes weight.
Arguments task_type {Tensor} t.
Arguments n_classes {Tensor} t.
Arguments weight {Tensor} t.
Arguments loss_func_ {Tensor Array Loss} t.
Arguments log_y_pred_ {Tensor Array Loss} t.
Arguments log_y_true_ {Tensor Array Loss} t.

(** Reference collaborators used to run the task on concrete inputs:
    tensors, arrays and losses are numbers, and every torch operation
    succeeds and returns its argument. *)
Definition on_train_start_ref :=
  on_train_start nat nat nat.

Definition batch_loss_ref :=
  batch_loss nat nat nat (fun a => Ok a) (fun t => Ok t) (fun t => t) (fun t => t).

Definition fit_ref :=
  fit nat nat nat (fun a => Ok a) (fun t => Ok t) (fun t => t) (fun t => t).

Definition sum_loss : LossFunc nat nat :=
  fun fX target w => Ok (fX + target + w)%nat.

Definition model_with (k : Z) : Model nat nat :=
  mkModel k sum_loss (fun X => Ok X).

(** A binary classification task that keeps the default [weight]. *)
Definition speech_task : TaskClass nat :=
  mkTaskClass (Ok TASK_CLASSIFICATION) (Ok 2%Z) None.

(** A regression task that keeps the default [weight]. *)
Definition regression_task : TaskClass nat :=
  mkTaskClass (Ok TASK_REGRESSION) (Ok 1%Z) None.

Definition some_batch : Batch nat := mkBatch 7%nat 1%nat.

(** Changing one parameter of a generator. *)
Definition with_batch_size (g : LabelingTaskGenerator) (b : Z)
  : LabelingTaskGenerator :=
  mkGenerator (feature_extraction g) (duration g) b (per_epoch g)
              (parallel g) (exhaustive g) (shuffle g).


Definition with_duration (g : LabelingTaskGenerator) (d : Q)
  : LabelingTaskGenerator :=
  mkGenerator (feature_extraction g) d (batch_size g) (per_epoch g)
              (parallel g) (exhaustive g) (shuffle g).

(** The total duration of the segments of a timeline that are long
    enough for the generator's window. *)
Definition usable_duration (g : LabelingTaskGenerator) (t : Timeline) : Q :=
  sum (map seg_duration (eligible_segments g t)).

(** An entry of [data_] is the record of its own file: keyed by the
    file's identifier, holding the eligible segments of the file's
    annotated timeline (at least one) and their total duration. *)
Definition well_indexed {Raster : Type} (g : LabelingTaskGenerator)
           (entry : string * Datum Raster) : Prop :=
  let (uri, d) := entry in
  uri = get_unique_identifier (current_file d) /\
  segments d = eligible_segments g (annotated (current_file d)) /\
  segments d <> [] /\
  datum_duration d = usable_duration g (annotated (current_file d)).

(** A generator with a two-second window, and the index it builds on
    the two recordings that are longer than that. *)
Definition window2 : LabelingTaskGenerator := with_duration default_generator 2.

Definition reference_index : Index (list string) :=
  match initialize_ref window2 [long_file; medium_file] with
  | Ok idx => idx
  | Err _ => mkIndex (list string) [] [] []
  end.

Definition long_datum : Datum (list string) :=
  match dict_get (data_ reference_index) "db/long" with
  | Some d => d
  | None => mkDatum (list string) [] 0 long_file None
  end.


Definition with_shuffle (g : LabelingTaskGenerator) (b : bool)
  : LabelingTaskGenerator :=
  mkGenerator (feature_extraction g) (duration g) (batch_size g) (per_epoch g)
              (parallel g) (exhaustive g) b.

Definition with_parallel (g : LabelingTaskGenerator) (n : Z)
  : LabelingTaskGenerator :=
  mkGenerator (feature_extraction g) (duration g) (batch_size g) (per_epoch g)
              n (exhaustive g) (shuffle g).

(** ** The end of an epoch: [on_epoch_end] *)

(** The tag of a scalar sent to the writer: ['train/eer'] or
    [f'train/eer/{k}']. *)
Inductive scalar_tag : Type :=
| train_eer
| train_eer_class (k : Z).

Section EpochEnd.

(** Collaborators: [np.hstack] over a deque of arrays and [reshape] (both
    may raise), and the equal error rate that [det_curve] gives for class
    [k] from the reshaped logs. *)
Variables Tensor Array Loss Matrix Eer : Type.
Variable np_hstack : list Array -> result Matrix.
Variable reshape : Matrix -> result Matrix.
Variable det_curve_eer : Matrix -> Matrix -> Z -> Eer.

(** The scalars added to the writer, in order ([writer] tells whether
    there is one). *)
Definition on_epoch_end (cls : TaskClass Tensor)
           (self : TaskState Tensor Array Loss) (writer : bool)
  : result (list (scalar_tag * Eer)) :=
  if negb writer then Ok []
  else
    kind <- task_type cls ;;
    match kind with
    | TASK_CLASSIFICATION =>
        pred <- getattr (log_y_pred_ self) "log_y_pred_" ;;
        log_y_pred <- np_hstack (items Array pred) ;;
        true_ <- getattr (log_y_true_ self) "log_y_true_" ;;
        log_y_true <- np_hstack (items Array true_) ;;
        n <- n_classes cls ;;
        log_y_pred <- reshape log_y_pred ;;
        log_y_true <- reshape log_y_true ;;
        if (n <? 3)%Z
        then Ok [(train_eer, det_curve_eer log_y_true log_y_pred 0%Z)]
        else
          Ok (map (fun k =>
                     (train_eer_class (Z.of_nat k),
                      det_curve_eer log_y_true log_y_pred (Z.of_nat k)))
                  (seq 0 (Z.to_nat n)))
    | _ => Ok []
    end.

End EpochEnd.

(** ** The speech activity detection application
       (pyannote.audio.applications.speech_detection) *)

(** [self.config_['sequences']], with numbers as values. *)
Definition SequencesConfig : Type := dict Q.

(** The configuration reads at the top of [train]:
    [batch_size] (8192 when absent), [duration] and [step]. *)
Definition train_config (sequences : SequencesConfig) : result (Q * Q * Q) :=
  let batch_size :=
    match dict_get sequences "batch_size" with
    | Some b => b
    | None => 8192
    end in
  duration <- dict_getitem sequences "duration" ;;
  step <- dict_getitem sequences "step" ;;
  Ok (batch_size, duration, step).

(** [int(np.ceil((train_total / step) / batch_size))], in exact
    arithmetic: what is used of it is which division raises. *)
Definition steps_per_epoch (train_total step batch_size : Q) : result Z :=
  per_step <- py_truediv train_total step ;;
  q <- py_truediv per_step batch_size ;;
  Ok (Qceiling q).

(** The number of batches per epoch that [train] passes on, for a
    subset whose annotated duration ([protocol.stats(subset)['annotated']])
    is [train_total]; the batch generator and the protocol, built in
    between, are collaborators taken to succeed. *)
Definition train_steps (sequences : SequencesConfig) (train_total : Q)
  : result Z :=
  cfg <- train_config sequences ;;
  let '(batch_size, _, step) := cfg in
  steps_per_epoch train_total step batch_size.

(** The epoch range searched by [tune]: [at] overrides the bounds,
    which default to the first epoch and to the last completed one. *)
Definition tune_range (start end_bound at_ : option Z) (first_epoch epoch : Z)
  : Z * Z :=
  match at_ with
  | None =>
      (match start with None => first_epoch | Some s => s end,
       match end_bound with None => (epoch - 1)%Z | Some e => e end)
  | Some a => (a, a)
  end.

(** A dictionary with integer keys (the one-element tuples [(epoch,)]),
    in insertion order. *)
Definition zdict (V : Type) : Type := list (Z * V).

Fixpoint zdict_get {V : Type} (d : zdict V) (k : Z) : option V :=
  match d with
  | [] => None
  | (k', v) :: r => if (k' =? k)%Z then Some v else zdict_get r k
  end.

Fixpoint zdict_set {V : Type} (d : zdict V) (k : Z) (v : V) : zdict V :=
  match d with
  | [] => [(k, v)]
  | (k', v') :: r =>
      if (k' =? k)%Z then (k, v) :: r else (k', v') :: zdict_set r k v
  end.

Record BinarizeParams : Type := mkBinarize { onset : Q; offset_ : Q }.

(** The two dictionaries that [objective_function] closes over, and the
    epochs [tune_binarizer] has been run on so far, in order. *)
Record TuneMemo : Type := mkMemo {
  best_params : zdict BinarizeParams;
  best_metric : zdict Q;
  tuned_epochs : list Z
}.

Definition empty_memo : TuneMemo := mkMemo [] [] [].

(** What [callback] dumps to [tune.yml]. *)
Record TuneState : Type := mkTuneState {
  status_epochs : Z;
  status_start : Z;
  status_end : Z;
  status_objective : Q;
  state_epoch : Z;
  state_onset : Q;
  state_offset : Q
}.

Section Tune.

(** Collaborators: [tune_binarizer] for one epoch (it loads the model
    and tunes the thresholds on the subset) and the text of a key in a
    [KeyError]. *)
Variable tune_binarizer : Z -> BinarizeParams * Q.
Variable repr_key : Z -> string.

Definition objective_function (memo : TuneMemo) (epoch : Z) : Q * TuneMemo :=
  match zdict_get (best_metric memo) epoch with
  | Some metric => (metric, memo)
  | None =>
      let (binarize_params, metric) := tune_binarizer epoch in
      (metric,
       mkMemo (zdict_set (best_params memo) epoch binarize_params)
              (zdict_set (best_metric memo) epoch metric)
              (tuned_epochs memo ++ [epoch]))
  end.

(** The trials of one search, in the order the optimiser asks for them. *)
Fixpoint run_trials (memo : TuneMemo) (trials : list Z) : list Q * TuneMemo :=
  match trials with
  | [] => ([], memo)
  | x :: rest =>
      let (metric, memo') := objective_function memo x in
      let (metrics, memo'') := run_trials memo' rest in
      (metric :: metrics, memo'')
  end.

(** [callback(res)], for [res.x = [x]] and [res.fun = fun_]. *)
Definition callback (memo : TuneMemo) (epoch start end_bound : Z)
           (x : Z) (fun_ : Q) : result TuneState :=
  match zdict_get (best_params memo) x with
  | None => Err (KeyError (repr_key x))
  | Some p =>
      Ok (mkTuneState epoch start end_bound fun_ x (onset p) (offset_ p))
  end.

End Tune.

(** *** Directories *)

Definition is_sep (c : Ascii.ascii) : bool := Ascii.eqb c "/"%char.

Fixpoint drop_while {A : Type} (p : A -> bool) (l : list A) : list A :=
  match l with
  | [] => []
  | x :: r => if p x then drop_while p r else l
  end.

(** [l.rstrip('/')] *)
Definition rstrip_sep (l : list Ascii.ascii) : list Ascii.ascii :=
  rev (drop_while is_sep (rev l)).

(** [os.path.dirname] on a POSIX path: everything up to the last
    separator, without that separator and the ones before it unless the
    result is made of separators only. *)
Definition dirname_chars (l : list Ascii.ascii) : list Ascii.ascii :=
  let head := rev (drop_while (fun c => negb (is_sep c)) (rev l)) in
  match head with
  | [] => head
  | _ :: _ => if forallb is_sep head then head else rstrip_sep head
  end.

Definition dirname (p : string) : string :=
  string_of_list_ascii (dirname_chars (list_ascii_of_string p)).

(** [TRAIN_DIR], [TUNE_DIR], [APPLY_DIR], [TUNE_YML] and [HARD_MDTM],
    formatted. *)
Definition TRAIN_DIR (experiment_dir protocol subset : string) : string :=
  (experiment_dir ++ "/train/" ++ protocol ++ "." ++ subset)%string.

Definition TUNE_DIR (train_dir protocol subset : string) : string :=
  (train_dir ++ "/tune/" ++ protocol ++ "." ++ subset)%string.

Definition APPLY_DIR (tune_dir : string) : string :=
  (tune_dir ++ "/apply")%string.

Definition TUNE_YML (tune_dir : string) : string :=
  (tune_dir ++ "/tune.yml")%string.

Definition HARD_MDTM (apply_dir protocol subset : string) : string :=
  (apply_dir ++ "/" ++ protocol ++ "." ++ subset ++ ".mdtm")%string.

(** The training directory that [from_tune_dir] loads the application
    from. *)
Definition from_tune_dir (tune_dir : string) : string :=
  dirname (dirname tune_dir).

(** Reference inputs for the task and the application. *)
Definition weighted_speech_task : TaskClass nat :=
  mkTaskClass (Ok TASK_CLASSIFICATION) (Ok 2%Z) (Some 1%nat).

Definition reference_tuner (epoch : Z) : BinarizeParams * Q :=
  (mkBinarize (inject_Z epoch / 10) (inject_Z epoch / 20),
   Qabs (inject_Z epoch - 7)).

Definition reference_sequences : SequencesConfig :=
  [("duration", 32 # 10); ("step", 8 # 10)].

(** Reference collaborators for the end of an epoch: matrices are lists
    of numbers, stacking fails on an empty sequence, and the error rate
    reported for class [k] is [k] itself. *)
Definition on_epoch_end_ref :=
  on_epoch_end nat nat nat (list nat) Z
    (fun arrays => match arrays with
                   | [] => Err (ValueError "need at least one array to concatenate")
                   | _ :: _ => Ok arrays
                   end)
    (fun m => Ok m)
    (fun _ _ k => k).

Definition task_with_classes (n : Z) : TaskClass nat :=
  mkTaskClass (Ok TASK_CLASSIFICATION) (Ok n) (Some 1%nat).

Definition logged_task : TaskState nat nat nat :=
  mkTaskState nat nat nat (Some sum_loss)
              (Some (mkDeque nat [4%nat] (Some 2%nat)))
              (Some (mkDeque nat [1%nat] (Some 2%nat))).

Definition weighted_regression_task : TaskClass nat :=
  mkTaskClass (Ok TASK_REGRESSION) (Ok 1%Z) (Some 1%nat).

Definition unknown_task : TaskClass nat :=
  mkTaskClass (Ok TASK_OTHER) (Ok 1%Z) (Some 1%nat).

(** The task after a run of three batches with a writer and logs bounded
    by two batches. *)
Definition trained_task : TaskState nat nat nat :=
  match snd (fit_ref weighted_speech_task (model_with 2) true (Some 2%nat)
                     [some_batch; some_batch; some_batch]) with
  | Ok self => self
  | Err _ => fresh_task nat nat nat
  end.

(** Paths without a separator, paths made of separators only, and
    [p.rstrip('/')]. *)
Definition sep_free (p : string) : bool :=
  forallb (fun c => negb (is_sep c)) (list_ascii_of_string p).

Definition only_seps (p : string) : bool :=
  forallb is_sep (list_ascii_of_string p).

Definition rstrip (p : string) : string :=
  string_of_list_ascii (rstrip_sep (list_ascii_of_string p)).


(** * Properties *)

(** ** batches_per_epoch *)

Lemma Qceiling_is_ceiling (x : Q) : is_ceiling x (Qceiling x).
Proof.
  split.
  - apply Qle_ceiling.
  - intros m Hm.
    apply Qceiling_resp_le in Hm.
    now rewrite Qceiling_Z in Hm.
Qed.

Lemma is_ceiling_unique (x : Q) (n m : Z) :
  is_ceiling x n -> is_ceiling x m -> n = m.
Proof.
  intros [Hn Hn'] [Hm Hm'].
  specialize (Hn' m Hm). specialize (Hm' n Hn). lia.
Qed.

Lemma py_truediv_ok (a b : Q) : ~ b == 0 -> py_truediv a b = Ok (a / b).
Proof.
  intros Hb. unfold py_truediv.
  destruct (Qeq_bool b 0) eqn:E; [|reflexivity].
  apply Qeq_bool_eq in E. contradiction.
Qed.

Lemma py_truediv_zero (a b : Q) :
  b == 0 -> py_truediv a b = Err ZeroDivisionError.
Proof.
  intros Hb. unfold py_truediv.
  now rewrite (Qeq_eq_bool _ _ Hb).
Qed.



Lemma int_ceil_is_ceiling (x : spec_float) (v : Q) :
  float_value x = Some v -> int_ceil x = Ok (Qceiling v).
Proof.
  intros H. unfold int_ceil. now rewrite H.
Qed.

(** C3, as the code has it: [batches_per_epoch] is computed in binary64.
    Once the two products are formed and their quotient, rounded to the
    nearest binary64 value, is finite, the property returns the ceiling
    of that rounded quotient: the least integer that is not below it.
    Between two floats the rounded quotient is the binary64 division of
    the rounded products. *)
Theorem batches_per_epoch64_is_ceiling (per_epoch duration : number)
        (batch_size : Z) (E B : number) (q : spec_float) (v : Q) :
  duration_per_epoch64 per_epoch = Ok E ->
  duration_per_batch64 duration batch_size = Ok B ->
  number_truediv E B = Ok q ->
  float_value q = Some v ->
  (exists n : Z,
      batches_per_epoch64 per_epoch duration batch_size = Ok n /\
      is_ceiling v n) /\
  (forall x y, E = Float x -> B = Float y -> q = SFdiv 53 1024 x y).
Proof.
  intros HE HB Hq Hv. split.
  - exists (Qceiling v). split; [|apply Qceiling_is_ceiling].
    unfold batches_per_epoch64. rewrite HE. cbn [bind]. rewrite HB. cbn [bind].
    rewrite Hq. cbn [bind]. now apply int_ceil_is_ceiling.
  - intros x y -> ->. cbn in Hq. destruct (is_zero y); [discriminate|].
    now injection Hq as <-.
Qed.

Lemma batches_per_epoch64_is_ceiling_witness :
  exists n : Z,
    batches_per_epoch64 (Int 1) (Float three_tenths) 3 = Ok n /\
    is_ceiling (6597069766656001 # 68719476736) n.
Proof.
  destruct (batches_per_epoch64_is_ceiling
              (Int 1) (Float three_tenths) 3
              (Int 86400) (Float (S754_finite false 8106479329266892 (-53)))
              (S754_finite false 6597069766656001 (-36))
              (6597069766656001 # 68719476736)) as [H _];
    try (vm_compute; reflexivity).
  exact H.
Defined.

(** With a window of 0.3 s and one day per epoch, the property returns
    96001 for batches of 3 and 28800 for batches of 10. The exact
    quotient of 86400 by 3 times three tenths is 96000; the exact quotient
    of 86400 by 10 times the binary64 value of 0.3 is above 28800. *)
Example batches_per_epoch64_samples :
  batches_per_epoch64 (Int 1) (Float three_tenths) 3 = Ok 96001%Z /\
  batches_per_epoch64 (Int 1) (Float three_tenths) 10 = Ok 28800%Z /\
  is_ceiling ((1 * 24 * 60 * 60) / ((3 # 10) * inject_Z 3)) 96000 /\
  float_value three_tenths = Some (5404319552844595 # 18014398509481984).
Proof.
  split; [vm_compute; reflexivity|]. split; [vm_compute; reflexivity|].
  split; [|vm_compute; reflexivity].
  split.
  - vm_compute. discriminate.
  - intros m Hm.
    assert (H : (1 * 24 * 60 * 60) / ((3 # 10) * inject_Z 3) == inject_Z 96000)
      by reflexivity.
    rewrite H in Hm. now rewrite <- Zle_Qle in Hm.
Qed.

(** The result is not always the ceiling of the exact quotient of the
    inputs: for one day per epoch, a window of 0.3 (the binary64 value)
    and batches of 10, the product rounds to 3, the property returns
    28800, and the exact quotient is above 28800. *)
Lemma batches_per_epoch64_not_exact_ceiling :
  ~ (forall (per_epoch duration : number) (batch_size : Z) (pe d : Q),
        number_value per_epoch = Some pe ->
        number_value duration = Some d ->
        ~ d * inject_Z batch_size == 0 ->
        exists n : Z,
          batches_per_epoch64 per_epoch duration batch_size = Ok n /\
          is_ceiling ((pe * 24 * 60 * 60) / (d * inject_Z batch_size)) n).
Proof.
  intros H.
  destruct (H (Int 1) (Float three_tenths) 10%Z
              1 (5404319552844595 # 18014398509481984))
    as (n & Hn & Hle & _).
  - reflexivity.
  - vm_compute. reflexivity.
  - vm_compute. discriminate.
  - vm_compute in Hn. injection Hn as <-.
    apply Qle_bool_iff in Hle. vm_compute in Hle. discriminate.
Qed.

Example batches_per_epoch_default :
  batches_per_epoch default_generator = Ok 844%Z.
Proof. reflexivity. Qed.





Example batches_per_epoch_larger_batch :
  batches_per_epoch (with_batch_size default_generator 64) = Ok 422%Z.
Proof. reflexivity. Qed.

(** ** Dictionaries *)

Section DictFacts.

Context {V : Type}.

Lemma dict_get_In (d : dict V) (k : string) (v : V) :
  dict_get d k = Some v -> In (k, v) d.
Proof.
  induction d as [|[k' v'] r IH]; simpl; [discriminate|].
  destruct (String.eqb k' k) eqn:E.
  - apply String.eqb_eq in E. intros [= <-]. subst. now left.
  - intros H. right. now apply IH.
Qed.

Lemma dict_set_In (d : dict V) (k : string) (v : V) (e : string * V) :
  In e (dict_set d k v) -> e = (k, v) \/ In e d.
Proof.
  induction d as [|[k' v'] r IH]; simpl.
  - intros [<-|[]]. now left.
  - destruct (String.eqb k' k); simpl.
    + intros [<-|H]; [now left | right; now right].
    + intros [<-|H]; [right; now left|].
      destruct (IH H) as [->|H']; [now left | right; now right].
Qed.

Lemma dict_set_Forall (P : string * V -> Prop) (d : dict V) (k : string) (v : V) :
  Forall P d -> P (k, v) -> Forall P (dict_set d k v).
Proof.
  intros Hd Hkv. apply Forall_forall. intros e He.
  destruct (dict_set_In _ _ _ _ He) as [->|H]; [assumption|].
  rewrite Forall_forall in Hd. now apply Hd.
Qed.

Lemma dict_set_keys_In (d : dict V) (k : string) (v : V) (k' : string) :
  In k' (dict_keys (dict_set d k v)) -> k' = k \/ In k' (dict_keys d).
Proof.
  unfold dict_keys. rewrite !in_map_iff.
  intros [[k0 v0] [<- H]]. simpl.
  destruct (dict_set_In _ _ _ _ H) as [[= -> ->]|H']; [now left|].
  right. now exists (k0, v0).
Qed.

Lemma dict_set_keys_NoDup (d : dict V) (k : string) (v : V) :
  NoDup (dict_keys d) -> NoDup (dict_keys (dict_set d k v)).
Proof.
  induction d as [|[k' v'] r IH]; simpl; intros H.
  - constructor; [intros [] | constructor].
  - inversion H as [|? ? Hnotin Hr]; subst.
    destruct (String.eqb k' k) eqn:E; simpl.
    + apply String.eqb_eq in E. subst. now constructor.
    + constructor; [|now apply IH].
      intros Hin. apply dict_set_keys_In in Hin as [->|Hin].
      * now rewrite String.eqb_refl in E.
      * contradiction.
Qed.

Lemma dict_get_of_In (d : dict V) (k : string) (v : V) :
  NoDup (dict_keys d) -> In (k, v) d -> dict_get d k = Some v.
Proof.
  induction d as [|[k' v'] r IH]; simpl; intros Hnd Hin; [contradiction|].
  inversion Hnd as [|? ? Hnotin Hr]; subst.
  destruct Hin as [[= -> ->]|Hin].
  - now rewrite String.eqb_refl.
  - destruct (String.eqb k' k) eqn:E; [|now apply IH].
    apply String.eqb_eq in E. subst. exfalso. apply Hnotin.
    unfold dict_keys. apply in_map_iff. now exists (k, v).
Qed.

(** Re-assigning an existing key leaves the keys as they are. *)
Lemma dict_set_keys_present (d : dict V) (k : string) (v v' : V) :
  dict_get d k = Some v -> dict_keys (dict_set d k v') = dict_keys d.
Proof.
  induction d as [|[k0 v0] r IH]; simpl; [discriminate|].
  destruct (String.eqb k0 k) eqn:E; simpl.
  - apply String.eqb_eq in E. now subst.
  - intros H. f_equal. now apply IH.
Qed.

Lemma dict_get_None_keys (d : dict V) (k : string) :
  dict_get d k = None <-> ~ In k (dict_keys d).
Proof.
  induction d as [|[k0 v0] r IH]; simpl.
  - split; [intros _ [] | reflexivity].
  - destruct (String.eqb k0 k) eqn:E.
    + apply String.eqb_eq in E. subst. split; [discriminate|].
      intros H. exfalso. apply H. now left.
    + apply String.eqb_neq in E. rewrite IH. split.
      * intros H [H'|H']; [now apply E | now apply H].
      * intros H H'. apply H. now right.
Qed.

End DictFacts.

(** ** Sums of durations *)

Lemma fold_left_Qplus_acc (l : list Q) (a : Q) :
  fold_left Qplus l a == a + sum l.
Proof.
  unfold sum. revert a.
  induction l as [|x l IH]; intros a; simpl.
  - now rewrite Qplus_0_r.
  - rewrite (IH (a + x)), (IH (0 + x)). ring.
Qed.

Lemma sum_cons (x : Q) (l : list Q) : sum (x :: l) == x + sum l.
Proof.
  unfold sum at 1. simpl. rewrite fold_left_Qplus_acc. ring.
Qed.

Lemma sum_nonneg (l : list Q) : Forall (fun x => 0 < x) l -> 0 <= sum l.
Proof.
  induction 1 as [|x l Hx Hl IH].
  - apply Qle_refl.
  - rewrite sum_cons. lra.
Qed.

Lemma sum_pos (l : list Q) :
  Forall (fun x => 0 < x) l -> l <> [] -> 0 < sum l.
Proof.
  intros H Hne. destruct H as [|x l Hx Hl]; [contradiction|].
  rewrite sum_cons. pose proof (sum_nonneg l Hl). lra.
Qed.

(** ** Eligible segments *)

Lemma long_enough_iff (g : LabelingTaskGenerator) (s : Segment) :
  long_enough g s = true <-> duration g < seg_duration s.
Proof.
  unfold long_enough. rewrite negb_true_iff.
  split.
  - intros H. apply Qnot_le_lt. intros Hle.
    apply Qle_bool_iff in Hle. congruence.
  - intros H. destruct (Qle_bool (seg_duration s) (duration g)) eqn:E; [|reflexivity].
    apply Qle_bool_iff in E. exfalso. eapply Qlt_not_le; eauto.
Qed.

Lemma eligible_segments_iff (g : LabelingTaskGenerator) (t : Timeline) (s : Segment) :
  In s (eligible_segments g t) <-> In s t /\ duration g < seg_duration s.
Proof.
  unfold eligible_segments. rewrite filter_In. now rewrite long_enough_iff.
Qed.

Lemma usable_duration_pos (g : LabelingTaskGenerator) (t : Timeline) :
  0 <= duration g -> eligible_segments g t <> [] -> 0 < usable_duration g t.
Proof.
  intros Hg Hne. unfold usable_duration. apply sum_pos.
  - apply Forall_forall. intros x Hx.
    apply in_map_iff in Hx as [s [<- Hs]].
    apply eligible_segments_iff in Hs as [_ Hs]. lra.
  - intros E. apply Hne. now apply map_eq_nil in E.
Qed.

Lemma usable_duration_empty (g : LabelingTaskGenerator) (t : Timeline) :
  eligible_segments g t = [] -> usable_duration g t == 0.
Proof.
  intros E. unfold usable_duration. now rewrite E.
Qed.

(** ** Loops *)

Lemma fold_left_inv {A B : Type} (P : A -> Prop) (f : A -> B -> A)
      (l : list B) (a : A) :
  P a -> (forall a b, In b l -> P a -> P (f a b)) -> P (fold_left f l a).
Proof.
  revert a. induction l as [|b l IH]; intros a Ha Hstep; simpl; [assumption|].
  apply IH.
  - apply Hstep; [now left | assumption].
  - intros a' b' Hb'. apply Hstep. now right.
Qed.

Lemma foldM_inv {A B : Type} (P : A -> Prop) (f : A -> B -> result A)
      (l : list B) (a a' : A) :
  P a -> (forall a b a', In b l -> P a -> f a b = Ok a' -> P a') ->
  foldM f l a = Ok a' -> P a'.
Proof.
  revert a. induction l as [|b l IH]; intros a Ha Hstep; simpl.
  - now intros [= <-].
  - destruct (f a b) as [a1|e] eqn:E; simpl; [|discriminate].
    apply IH.
    + eapply Hstep; eauto. now left.
    + intros a2 b2 a3 Hb2. apply Hstep. now right.
Qed.

(** A loop that completed has run its body with success on every item. *)
Lemma foldM_each {A B : Type} (P : A -> Prop) (Q : B -> Prop)
      (f : A -> B -> result A) (l : list B) (a a' : A) :
  P a ->
  (forall a b a', P a -> f a b = Ok a' -> P a' /\ Q b) ->
  foldM f l a = Ok a' -> Forall Q l.
Proof.
  revert a. induction l as [|b l IH]; intros a Ha Hstep; simpl.
  - constructor.
  - destruct (f a b) as [a1|e] eqn:E; simpl; [|discriminate].
    destruct (Hstep _ _ _ Ha E) as [Ha1 Hb].
    intros H. constructor; [assumption|]. eapply IH; eauto.
Qed.

Lemma mapM_getitem {V A : Type} (h : V -> A) (d l : dict V) :
  (forall k v, In (k, v) l -> dict_get d k = Some v) ->
  mapM (fun uri => x <- dict_getitem d uri ;; Ok (h x)) (dict_keys l)
  = Ok (map (fun kv => h (snd kv)) l).
Proof.
  induction l as [|[k v] l IH]; intros H; [reflexivity|].
  change (dict_keys ((k, v) :: l)) with (k :: dict_keys l).
  cbn [mapM]. unfold dict_getitem at 1. rewrite (H k v) by now left.
  cbn [bind]. rewrite IH; [reflexivity|].
  intros k' v' Hin. apply H. now right.
Qed.

(** ** The corpus index *)

Section IndexFacts.

Variable Raster : Type.
Variable crop : Timeline -> Segment -> Timeline.
Variable crop_annotation : Annotation -> Segment -> Annotation.
Variable one_hot_encoding : Annotation -> Timeline -> list string -> result Raster.

Let cropped_ := cropped crop crop_annotation.
Let scan_file_ := scan_file Raster crop crop_annotation.
Let scan_files_ := scan_files Raster crop crop_annotation.
Let attach_y_ := attach_y Raster one_hot_encoding.
Let initialize_ := initialize Raster crop crop_annotation one_hot_encoding.

(** What holds of [data_] all along [initialize], for the protocol [p]. *)
Let index_inv (g : LabelingTaskGenerator) (p : Protocol)
    (data : dict (Datum Raster)) : Prop :=
  Forall (well_indexed g) data /\
  NoDup (dict_keys data) /\
  Forall (fun entry => exists f, In f p /\ current_file (snd entry) = cropped_ f)
         data.

Lemma cropped_identifier (f : ProtocolFile) :
  get_unique_identifier (cropped_ f) = get_unique_identifier f.
Proof. reflexivity. Qed.

Lemma scan_file_data (g : LabelingTaskGenerator) (st : Scan Raster)
      (f : ProtocolFile) :
  scan_data (scan_file_ g st f) =
    match eligible_segments g (annotated (cropped_ f)) with
    | [] => scan_data st
    | _ :: _ =>
        dict_set (scan_data st) (get_unique_identifier f)
                 (mkDatum Raster
                    (eligible_segments g (annotated (cropped_ f)))
                    (usable_duration g (annotated (cropped_ f)))
                    (cropped_ f) None)
    end.
Proof.
  unfold scan_file_, scan_file, cropped_, usable_duration. cbv zeta.
  destruct (eligible_segments g (annotated (cropped crop crop_annotation f)));
    reflexivity.
Qed.

Lemma scan_file_inv (g : LabelingTaskGenerator) (p : Protocol)
      (st : Scan Raster) (f : ProtocolFile) :
  In f p -> index_inv g p (scan_data st) ->
  index_inv g p (scan_data (scan_file_ g st f)).
Proof.
  intros Hf (Hw & Hnd & Hp).
  rewrite scan_file_data.
  destruct (eligible_segments g (annotated (cropped_ f))) as [|s segs] eqn:E.
  - now repeat split.
  - repeat split.
    + apply dict_set_Forall; [assumption|].
      unfold well_indexed. cbn [segments current_file datum_duration].
      repeat split; try reflexivity; [now rewrite E | discriminate].
    + now apply dict_set_keys_NoDup.
    + apply dict_set_Forall; [assumption|]. now exists f.
Qed.

Lemma scan_files_inv (g : LabelingTaskGenerator) (p : Protocol) :
  index_inv g p (scan_data (scan_files_ g p)).
Proof.
  unfold scan_files_, scan_files.
  apply (fold_left_inv (fun st => index_inv g p (scan_data st))).
  - simpl. repeat split; constructor.
  - intros st f Hf Hst. now apply scan_file_inv.
Qed.

Lemma attach_y_Ok (labels : list string) (data data' : dict (Datum Raster))
      (f : ProtocolFile) :
  attach_y_ labels data f = Ok data' ->
  exists raster d,
    one_hot_encoding (annotation f) (get_annotated f) labels = Ok raster /\
    dict_get data (get_unique_identifier f) = Some d /\
    data' = dict_set data (get_unique_identifier f)
                     (set_y Raster d (postprocess_y Raster raster)).
Proof.
  unfold attach_y_, attach_y, dict_getitem.
  destruct (one_hot_encoding _ _ _) as [raster|]; simpl; [|discriminate].
  destruct (dict_get data (get_unique_identifier f)) as [d|]; simpl;
    [|discriminate].
  intros [= <-]. now exists raster, d.
Qed.

Lemma attach_y_inv (g : LabelingTaskGenerator) (p : Protocol)
      (labels : list string) (data data' : dict (Datum Raster))
      (f : ProtocolFile) :
  index_inv g p data -> attach_y_ labels data f = Ok data' ->
  index_inv g p data' /\
  dict_keys data' = dict_keys data /\
  In (get_unique_identifier f) (dict_keys data).
Proof.
  intros (Hw & Hnd & Hp) H.
  destruct (attach_y_Ok _ _ _ _ H) as (raster & d & _ & E & ->).
  pose proof (dict_get_In _ _ _ E) as Hin.
  rewrite Forall_forall in Hw, Hp.
  repeat split.
  - apply dict_set_Forall; [now apply Forall_forall|].
    exact (Hw _ Hin).
  - now apply dict_set_keys_NoDup.
  - apply dict_set_Forall; [now apply Forall_forall|].
    exact (Hp _ Hin).
  - eapply dict_set_keys_present; eauto.
  - unfold dict_keys. apply in_map_iff. now exists (get_unique_identifier f, d).
Qed.

Lemma attach_all_inv (g : LabelingTaskGenerator) (p : Protocol)
      (labels : list string) (l : list ProtocolFile)
      (data data' : dict (Datum Raster)) :
  index_inv g p data -> foldM (attach_y_ labels) l data = Ok data' ->
  index_inv g p data' /\ dict_keys data' = dict_keys data /\
  Forall (fun f => In (get_unique_identifier f) (dict_keys data)) l.
Proof.
  revert data. induction l as [|f l IH]; intros data Hinv; simpl.
  - intros [= <-]. repeat split; try apply Hinv. constructor.
  - destruct (attach_y_ labels data f) as [d1|e] eqn:E; simpl; [|discriminate].
    destruct (attach_y_inv _ _ _ _ _ _ Hinv E) as (Hinv1 & Hk1 & Hf).
    intros H. destruct (IH _ Hinv1 H) as (Hinv' & Hk' & Hl).
    repeat split; try apply Hinv'.
    + congruence.
    + constructor; [assumption|]. now rewrite <- Hk1.
Qed.

(** The index that [initialize] returns: every entry is the record of
    a file of the protocol, keys are distinct, and every file of the
    protocol has its identifier among the keys. *)
Lemma initialize_index (g : LabelingTaskGenerator) (p : Protocol)
      (idx : Index Raster) :
  initialize_ g p = Ok idx ->
  index_inv g p (data_ idx) /\
  dict_keys (data_ idx) = dict_keys (scan_data (scan_files_ g p)) /\
  Forall (fun f => In (get_unique_identifier f) (dict_keys (data_ idx))) p.
Proof.
  unfold initialize_, initialize.
  fold (scan_files_ g p). fold attach_y_.
  destruct (foldM _ p (scan_data (scan_files_ g p))) as [data|e] eqn:E; simpl;
    [|discriminate].
  intros [= <-]. simpl.
  destruct (attach_all_inv g p _ _ _ _ (scan_files_inv g p) E) as (Hinv & Hk & Hl).
  repeat split; try apply Hinv; [assumption|].
  now rewrite Hk.
Qed.

Lemma sampling_table_ok (data : dict (Datum Raster)) :
  NoDup (dict_keys data) ->
  let ds := map (fun entry => datum_duration (snd entry)) data in
  sampling_table data =
    Ok (mkTable (dict_keys data) ds (map (fun d => d / sum ds) ds)).
Proof.
  intros Hnd ds. unfold sampling_table.
  rewrite (mapM_getitem (fun d => datum_duration d) data data).
  - reflexivity.
  - intros k v. now apply dict_get_of_In.
Qed.

Lemma well_indexed_duration_pos (g : LabelingTaskGenerator)
      (data : dict (Datum Raster)) :
  0 <= duration g -> Forall (well_indexed g) data ->
  Forall (fun x => 0 < x) (map (fun entry => datum_duration (snd entry)) data).
Proof.
  intros Hg Hw. apply Forall_forall. intros x Hx.
  apply in_map_iff in Hx as [[u d] [<- Hin]].
  rewrite Forall_forall in Hw. destruct (Hw _ Hin) as (_ & Hs & Hne & Hd).
  simpl. rewrite Hd. apply usable_duration_pos; [assumption|].
  now rewrite <- Hs.
Qed.

End IndexFacts.

Lemma sum_map_div (l : list Q) (t : Q) :
  sum (map (fun d => d / t) l) == sum l / t.
Proof.
  induction l as [|x l IH].
  - unfold sum; simpl. unfold Qdiv. now rewrite Qmult_0_l.
  - cbn [map]. rewrite !sum_cons, IH. unfold Qdiv. ring.
Qed.

Lemma nth_error_map_Some {A B : Type} (f : A -> B) (l : list A) (i : nat) (a : A) :
  nth_error l i = Some a -> nth_error (map f l) i = Some (f a).
Proof.
  intros H. rewrite nth_error_map, H. reflexivity.
Qed.

Section IndexClaims.

Variable Raster : Type.
Variable crop : Timeline -> Segment -> Timeline.
Variable crop_annotation : Annotation -> Segment -> Annotation.
Variable one_hot_encoding : Annotation -> Timeline -> list string -> result Raster.

Let cropped_ := cropped crop crop_annotation.
Let scan_files_ := scan_files Raster crop crop_annotation.
Let attach_y_ := attach_y Raster one_hot_encoding.
Let initialize_ := initialize Raster crop crop_annotation one_hot_encoding.



(** C6: a segment of a file's (cropped) annotated timeline is kept as
    eligible exactly when its duration is strictly greater than the window
    duration: this holds of the filter on every file, of every entry the
    first loop of [initialize] stores, and of every entry of the index
    [initialize] returns. A segment exactly as long as the window is not
    kept. *)
Theorem segment_eligible_iff_strictly_longer (g : LabelingTaskGenerator)
        (p : Protocol) :
  (forall (f : ProtocolFile) (s : Segment),
      In s (eligible_segments g (annotated (cropped_ f))) <->
      In s (annotated (cropped_ f)) /\ duration g < seg_duration s) /\
  (forall (t : Timeline) (s : Segment),
      seg_duration s == duration g -> ~ In s (eligible_segments g t)) /\
  (forall (uri : string) (d : Datum Raster),
      In (uri, d) (scan_data (scan_files_ g p)) ->
      forall s : Segment,
        In s (segments d) <->
        In s (annotated (current_file d)) /\ duration g < seg_duration s) /\
  (forall idx : Index Raster,
      initialize_ g p = Ok idx ->
      forall (uri : string) (d : Datum Raster),
        dict_get (data_ idx) uri = Some d ->
        forall s : Segment,
          In s (segments d) <->
          In s (annotated (current_file d)) /\ duration g < seg_duration s).
Proof.
  split; [|split; [|split]].
  - intros f s. apply eligible_segments_iff.
  - intros t s Heq Hin. apply eligible_segments_iff in Hin as [_ Hlt].
    rewrite Heq in Hlt. now apply Qlt_irrefl in Hlt.
  - intros uri d Hin s.
    destruct (scan_files_inv Raster crop crop_annotation g p) as (Hw & _).
    rewrite Forall_forall in Hw. destruct (Hw _ Hin) as (_ & Hs & _).
    rewrite Hs. apply eligible_segments_iff.
  - intros idx Hidx uri d Hget s.
    destruct (initialize_index _ _ _ _ _ _ _ Hidx) as ((Hw & _) & _).
    rewrite Forall_forall in Hw.
    destruct (Hw _ (dict_get_In _ _ _ Hget)) as (_ & Hs & _).
    rewrite Hs. apply eligible_segments_iff.
Qed.

(** C5: when [initialize] has returned an index with at least one file,
    for a positive window duration, [random_samples] builds its table
    without error, every duration in it is positive, and so is their
    sum: the probabilities are well defined, and they add up to 1. *)
Theorem durations_sum_positive (g : LabelingTaskGenerator) (p : Protocol)
        (idx : Index Raster) :
  0 < duration g ->
  initialize_ g p = Ok idx ->
  data_ idx <> [] ->
  exists t : SamplingTable,
    sampling_table (data_ idx) = Ok t /\
    durations t = map (fun entry => datum_duration (snd entry)) (data_ idx) /\
    Forall (fun x => 0 < x) (durations t) /\
    0 < sum (durations t) /\
    sum (probabilities t) == 1.
Proof.
  intros Hg Hidx Hne.
  destruct (initialize_index _ _ _ _ _ _ _ Hidx) as ((Hw & Hnd & _) & _).
  eexists. split; [now apply sampling_table_ok|]. cbn [durations probabilities].
  assert (Hpos : Forall (fun x => 0 < x)
                   (map (fun entry => datum_duration (snd entry)) (data_ idx))).
  { apply (well_indexed_duration_pos Raster g); [now apply Qlt_le_weak | assumption]. }
  assert (Hsum : 0 < sum (map (fun entry => datum_duration (snd entry)) (data_ idx))).
  { apply sum_pos; [assumption|]. intros E. apply Hne.
    now apply map_eq_nil in E. }
  repeat split; try assumption.
  rewrite sum_map_div. field. intros E. rewrite E in Hsum. discriminate.
Qed.

Lemma dict_set_same_duration (d : dict (Datum Raster)) (k : string)
      (v v' : Datum Raster) :
  dict_get d k = Some v -> datum_duration v' = datum_duration v ->
  map (fun e => (fst e, datum_duration (snd e))) (dict_set d k v')
  = map (fun e => (fst e, datum_duration (snd e))) d.
Proof.
  intros Hget Hv. induction d as [|[k0 v0] r IH]; simpl in *; [discriminate|].
  destruct (String.eqb_spec k0 k) as [->|Hne]; simpl.
  - injection Hget as ->. now rewrite Hv.
  - f_equal. now apply IH.
Qed.

(** The second loop of [initialize] leaves keys and durations as the
    first loop made them. *)
Lemma attach_all_durations (labels : list string) (l : list ProtocolFile)
      (data data' : dict (Datum Raster)) :
  foldM (attach_y_ labels) l data = Ok data' ->
  map (fun e => (fst e, datum_duration (snd e))) data'
  = map (fun e => (fst e, datum_duration (snd e))) data.
Proof.
  revert data. induction l as [|f l IH]; intros data; simpl.
  - now intros [= <-].
  - destruct (attach_y_ labels data f) as [d1|e] eqn:E; simpl; [|discriminate].
    intros H. rewrite (IH _ H).
    destruct (attach_y_Ok Raster one_hot_encoding _ _ _ _ E)
      as (raster & d0 & _ & Hget & ->).
    now apply dict_set_same_duration with (v := d0).
Qed.

Lemma sampling_table_same (data data' : dict (Datum Raster)) :
  NoDup (dict_keys data) ->
  map (fun e => (fst e, datum_duration (snd e))) data'
  = map (fun e => (fst e, datum_duration (snd e))) data ->
  sampling_table data' = sampling_table data.
Proof.
  intros Hnd Hmap.
  assert (Hk : dict_keys data' = dict_keys data).
  { pose proof (f_equal (map fst) Hmap) as H.
    rewrite !map_map in H. exact H. }
  assert (Hd : map (fun e => datum_duration (snd e)) data'
               = map (fun e => datum_duration (snd e)) data).
  { pose proof (f_equal (map snd) Hmap) as H.
    rewrite !map_map in H. exact H. }
  rewrite (sampling_table_ok Raster data Hnd).
  rewrite (sampling_table_ok Raster data') by now rewrite Hk.
  cbv zeta. now rewrite Hk, Hd.
Qed.

(** C2: the table that [random_samples] draws from, for a non-negative
    window duration. It is built from the entries that the first loop of
    [initialize] stores in [data_] (and is the same for the index that
    [initialize] returns, when it returns). A file of the subset whose
    eligible segments add up to 0 has no entry: when no file under its
    identifier has a positive usable duration, its identifier is not
    among the sampled identifiers and no sample carries it. The
    probability attached to each indexed file is the total duration of
    the eligible segments of that file divided by the sum of the
    durations of all indexed files. *)
Theorem random_samples_weights (g : LabelingTaskGenerator) (p : Protocol) :
  0 <= duration g ->
  exists t : SamplingTable,
    sampling_table (scan_data (scan_files_ g p)) = Ok t /\
    (forall idx : Index Raster,
        initialize_ g p = Ok idx -> sampling_table (data_ idx) = Ok t) /\
    uris t = dict_keys (scan_data (scan_files_ g p)) /\
    durations t = map (fun entry => datum_duration (snd entry))
                      (scan_data (scan_files_ g p)) /\
    (forall f : ProtocolFile,
        In f p ->
        usable_duration g (annotated (cropped_ f)) == 0 ->
        (forall f', In f' p ->
           get_unique_identifier f' = get_unique_identifier f ->
           usable_duration g (annotated (cropped_ f')) == 0) ->
        ~ In (get_unique_identifier f) (uris t) /\
        (forall c s,
            random_sample g (scan_data (scan_files_ g p)) t c = Ok s ->
            get_unique_identifier (sample_file Raster s)
            <> get_unique_identifier f)) /\
    (forall (i : nat) (uri : string),
        nth_error (uris t) i = Some uri ->
        exists (d : Datum Raster) (f : ProtocolFile),
          dict_get (scan_data (scan_files_ g p)) uri = Some d /\
          In f p /\ get_unique_identifier f = uri /\
          current_file d = cropped_ f /\
          datum_duration d = usable_duration g (annotated (cropped_ f)) /\
          0 < datum_duration d /\
          nth_error (probabilities t) i =
            Some (datum_duration d / sum (durations t))).
Proof.
  intros Hg.
  destruct (scan_files_inv Raster crop crop_annotation g p) as (Hw & Hnd & Hp).
  fold scan_files_ in Hw, Hnd, Hp.
  pose proof (well_indexed_duration_pos Raster g _ Hg Hw) as Hpos.
  rewrite Forall_forall in Hw, Hp, Hpos.
  assert (Hentry : forall uri d,
             In (uri, d) (scan_data (scan_files_ g p)) ->
             exists f, In f p /\ get_unique_identifier f = uri /\
                       current_file d = cropped_ f /\
                       datum_duration d
                       = usable_duration g (annotated (cropped_ f)) /\
                       0 < datum_duration d).
  { intros uri d Hin.
    destruct (Hw _ Hin) as (Hid & _ & _ & Hd).
    destruct (Hp _ Hin) as (f & Hf & Hc). simpl in Hc.
    exists f. split; [assumption|]. split; [now rewrite Hid, Hc|].
    split; [assumption|]. split; [now rewrite Hd, Hc|].
    apply Hpos. apply in_map_iff. now exists (uri, d). }
  assert (Habsent : forall f,
             (forall f', In f' p ->
                get_unique_identifier f' = get_unique_identifier f ->
                usable_duration g (annotated (cropped_ f')) == 0) ->
             ~ In (get_unique_identifier f)
                  (dict_keys (scan_data (scan_files_ g p)))).
  { intros f Hzero Hin. unfold dict_keys in Hin.
    apply in_map_iff in Hin as [[u d] [Hu Hin]]. simpl in Hu. subst u.
    destruct (Hentry _ _ Hin) as (f' & Hf' & Hid & _ & Hd & Hlt).
    rewrite Hd, (Hzero f' Hf' Hid) in Hlt. now apply Qlt_irrefl in Hlt. }
  eexists. split; [now apply sampling_table_ok|].
  cbn [uris durations probabilities].
  split; [|split; [reflexivity|split; [reflexivity|split]]].
  - intros idx Hidx.
    rewrite <- (sampling_table_ok Raster _ Hnd).
    apply sampling_table_same; [assumption|].
    unfold initialize_, initialize in Hidx.
    destruct (foldM _ p _) as [data|e] eqn:E; simpl in Hidx; [|discriminate].
    injection Hidx as <-. cbn [data_].
    exact (attach_all_durations _ _ _ _ E).
  - intros f Hf _ Hzero. split; [now apply Habsent|].
    intros c s. unfold random_sample. cbn [uris].
    destruct (nth_error (dict_keys (scan_data (scan_files_ g p)))
                        (file_choice c)) as [uri|] eqn:Hu; [|discriminate].
    unfold dict_getitem.
    destruct (dict_get (scan_data (scan_files_ g p)) uri) as [d|] eqn:Hget;
      simpl; [|discriminate].
    destruct (nth_error (segments d) (segment_choice c)); [|discriminate].
    intros [= <-]. cbn [sample_file].
    destruct (Hw _ (dict_get_In _ _ _ Hget)) as (Hid & _).
    rewrite <- Hid. intros Heq. apply (Habsent f Hzero).
    rewrite <- Heq. eapply nth_error_In; eauto.
  - intros i uri Hi.
    unfold dict_keys in Hi. rewrite nth_error_map in Hi.
    destruct (nth_error (scan_data (scan_files_ g p)) i) as [[u d]|] eqn:Hnth;
      [|discriminate].
    simpl in Hi. injection Hi as ->.
    pose proof (nth_error_In _ _ Hnth) as Hin.
    destruct (Hentry _ _ Hin) as (f & Hf & Hid & Hc & Hd & Hlt).
    exists d, f. split; [now apply dict_get_of_In|].
    repeat (split; [assumption|]).
    rewrite nth_error_map.
    rewrite (nth_error_map_Some _ _ _ _ Hnth). reflexivity.
Qed.

End IndexClaims.

(** ** The batch stream *)

Lemma nth_error_seq_lt (a n i : nat) :
  (i < n)%nat -> nth_error (seq a n) i = Some (a + i)%nat.
Proof.
  revert a i. induction n as [|n IH]; intros a i Hi; [lia|].
  destruct i as [|i]; simpl.
  - f_equal. lia.
  - rewrite IH by lia. f_equal. lia.
Qed.


Lemma flat_map_ext_In {A B : Type} (f h : A -> list B) (l : list A) :
  (forall x, In x l -> f x = h x) -> flat_map f l = flat_map h l.
Proof.
  induction l as [|x l IH]; intros H; simpl; [reflexivity|].
  rewrite (H x) by now left. f_equal. apply IH. intros y Hy. apply H. now right.
Qed.

Lemma flat_map_of_map {A B C : Type} (f : B -> list C) (h : A -> B) (l : list A) :
  flat_map f (map h l) = flat_map (fun x => f (h x)) l.
Proof.
  induction l as [|x l IH]; simpl; [reflexivity|]. now rewrite IH.
Qed.

Lemma flat_map_length_uniform {A B : Type} (f : A -> list B) (m : nat) (l : list A) :
  (forall x, In x l -> List.length (f x) = m) ->
  List.length (flat_map f l) = (List.length l * m)%nat.
Proof.
  induction l as [|x l IH]; intros H; simpl; [reflexivity|].
  rewrite length_app, (H x) by now left.
  rewrite IH; [reflexivity|]. intros y Hy. apply H. now right.
Qed.

(** In a concatenation of blocks of one length [m], position [k] is
    position [k mod m] of block [k / m]. *)
Lemma nth_error_flat_map_uniform {A B : Type} (f : A -> list B) (m : nat)
      (l : list A) (k : nat) :
  m <> O ->
  (forall x, In x l -> List.length (f x) = m) ->
  nth_error (flat_map f l) k =
    match nth_error l (k / m) with
    | Some x => nth_error (f x) (k mod m)
    | None => None
    end.
Proof.
  intros Hm. revert k. induction l as [|x l IH]; intros k H.
  - simpl. destruct k, (_ / m)%nat; reflexivity.
  - cbn [flat_map].
    assert (Hx : List.length (f x) = m) by (apply H; now left).
    destruct (Nat.lt_ge_cases k m) as [Hk|Hk].
    + rewrite nth_error_app1 by lia.
      rewrite Nat.div_small, Nat.mod_small by assumption. reflexivity.
    + rewrite nth_error_app2 by lia. rewrite Hx.
      rewrite IH by (intros y Hy; apply H; now right).
      assert (Hd : (k / m = S ((k - m) / m))%nat).
      { replace k with ((k - m) + 1 * m)%nat at 1 by lia.
        rewrite Nat.div_add by assumption. lia. }
      assert (Hr : (k mod m = (k - m) mod m)%nat).
      { replace k with ((k - m) + 1 * m)%nat at 1 by lia.
        apply Nat.Div0.mod_add. }
      rewrite Hd, Hr. reflexivity.
Qed.

Lemma serve_epoch_spec (count i : nat) (cursors : nat -> nat) :
  fst (serve_epoch count i cursors)
    = map (fun j => (i, cursors i + j)%nat) (seq 0 count) /\
  forall j, snd (serve_epoch count i cursors) j
            = if Nat.eqb j i then (cursors j + count)%nat else cursors j.
Proof.
  revert cursors. induction count as [|c IH]; intros cursors.
  - simpl. split; [reflexivity|]. intros j. destruct (Nat.eqb j i); lia.
  - cbn [serve_epoch].
    destruct (serve_epoch c i (advance i cursors)) as [out cursors'] eqn:E.
    destruct (IH (advance i cursors)) as [Hout Hcur]. rewrite E in Hout, Hcur.
    cbn [fst snd] in *. split.
    + rewrite Hout. cbn [seq map]. f_equal; [f_equal; lia|].
      rewrite <- seq_shift, map_map. apply map_ext. intros j.
      unfold advance. rewrite Nat.eqb_refl. f_equal. lia.
    + intros j. rewrite Hcur. unfold advance.
      destruct (Nat.eqb j i); lia.
Qed.

Lemma serve_round_spec (generators : list nat) (bpe : nat) (cursors : nat -> nat) :
  NoDup generators ->
  fst (serve_round generators bpe cursors)
    = flat_map (fun i => map (fun j => (i, cursors i + j)%nat) (seq 0 bpe))
               generators /\
  forall j, snd (serve_round generators bpe cursors) j
            = if in_dec Nat.eq_dec j generators
              then (cursors j + bpe)%nat else cursors j.
Proof.
  revert cursors. induction generators as [|i rest IH]; intros cursors Hnd.
  - simpl. split; [reflexivity|]. reflexivity.
  - inversion Hnd as [|? ? Hnotin Hrest]; subst.
    cbn [serve_round].
    destruct (serve_epoch bpe i cursors) as [out c1] eqn:E1.
    destruct (serve_epoch_spec bpe i cursors) as [Hout1 Hc1].
    rewrite E1 in Hout1, Hc1. cbn [fst snd] in *.
    destruct (serve_round rest bpe c1) as [out' c2] eqn:E2.
    destruct (IH c1 Hrest) as [Hout2 Hc2].
    rewrite E2 in Hout2, Hc2. cbn [fst snd] in *.
    split.
    + cbn [flat_map]. rewrite Hout1, Hout2. f_equal.
      apply flat_map_ext_In. intros x Hx. rewrite Hc1.
      destruct (Nat.eqb_spec x i) as [->|_]; [contradiction | reflexivity].
    + intros j. rewrite Hc2, Hc1.
      destruct (in_dec Nat.eq_dec j rest) as [Hin|Hin];
        destruct (in_dec Nat.eq_dec j (i :: rest)) as [Hin'|Hin'];
        destruct (Nat.eqb_spec j i) as [->|Hne]; try reflexivity;
        exfalso; simpl in *; intuition congruence.
Qed.

(** The stream is a sequence of rounds, each round a sequence of
    epochs, one per generator in order, each epoch [bpe] consecutive
    batches of its generator. *)
Lemma serve_rounds_spec (rounds n bpe : nat) (cursors : nat -> nat) :
  fst (serve_rounds rounds n bpe cursors)
    = flat_map
        (fun r =>
           flat_map
             (fun i => map (fun j => (i, cursors i + r * bpe + j)%nat)
                           (seq 0 bpe))
             (seq 0 n))
        (seq 0 rounds).
Proof.
  revert cursors. induction rounds as [|r IH]; intros cursors; [reflexivity|].
  cbn [serve_rounds].
  destruct (serve_round (seq 0 n) bpe cursors) as [out c1] eqn:E1.
  destruct (serve_round_spec (seq 0 n) bpe cursors (seq_NoDup n 0)) as [Hout1 Hc1].
  rewrite E1 in Hout1, Hc1. cbn [fst snd] in *.
  destruct (serve_rounds r n bpe c1) as [out' c2] eqn:E2.
  specialize (IH c1). rewrite E2 in IH. cbn [fst] in *.
  cbn [seq flat_map]. f_equal.
  - rewrite Hout1. apply flat_map_ext_In. intros i _.
    apply map_ext. intros j. f_equal. lia.
  - rewrite IH, <- seq_shift, flat_map_of_map.
    apply flat_map_ext_In. intros r' _.
    apply flat_map_ext_In. intros i Hi.
    apply map_ext. intros j. f_equal. rewrite Hc1.
    destruct (in_dec Nat.eq_dec i (seq 0 n)) as [_|Hn]; [lia | contradiction].
Qed.

Lemma served_blocks (rounds n bpe : nat) :
  served rounds n bpe
    = flat_map
        (fun r =>
           flat_map (fun i => map (fun j => (i, r * bpe + j)%nat) (seq 0 bpe))
                    (seq 0 n))
        (seq 0 rounds).
Proof.
  unfold served. rewrite serve_rounds_spec. reflexivity.
Qed.

(** C4: the stream of [__call__] is served epoch by epoch. After
    [rounds] iterations of the outer loop it holds rounds * N * bpe
    batches (so it never ends when N >= 1 and bpe >= 1), and its [k]-th
    batch comes from generator (k / bpe) mod N: the generator is the
    same all along an epoch of [bpe] batches and the next epoch goes to
    the next generator, cyclically. Within its generator's own stream
    that batch has rank (k / (N * bpe)) * bpe + k mod bpe: each epoch
    takes [bpe] consecutive batches of its generator. *)
Theorem round_robin_epochs (n bpe rounds : nat) :
  List.length (served rounds n bpe) = (rounds * (n * bpe))%nat /\
  forall k : nat,
    (k < rounds * (n * bpe))%nat ->
    nth_error (served rounds n bpe) k
      = Some (producer_of n bpe k, rank_of n bpe k).
Proof.
  rewrite served_blocks.
  assert (Hinner : forall r i : nat,
             List.length (map (fun j => (i, r * bpe + j)%nat) (seq 0 bpe)) = bpe).
  { intros r i. now rewrite length_map, length_seq. }
  assert (Hround : forall r : nat,
             List.length
               (flat_map (fun i => map (fun j => (i, r * bpe + j)%nat) (seq 0 bpe))
                         (seq 0 n)) = (n * bpe)%nat).
  { intros r. rewrite (flat_map_length_uniform _ bpe) by (intros; apply Hinner).
    now rewrite length_seq. }
  split.
  - rewrite (flat_map_length_uniform _ (n * bpe)) by (intros; apply Hround).
    now rewrite length_seq.
  - intros k Hk.
    assert (Hn : n <> O) by (intros ->; lia).
    assert (Hb : bpe <> O) by (intros ->; lia).
    assert (Hnb : (n * bpe)%nat <> O) by lia.
    rewrite (nth_error_flat_map_uniform _ (n * bpe)); [|assumption|intros; apply Hround].
    assert (Hr : (k / (n * bpe) < rounds)%nat).
    { apply Nat.Div0.div_lt_upper_bound. lia. }
    rewrite nth_error_seq_lt by assumption. cbn [Nat.add].
    rewrite (nth_error_flat_map_uniform _ bpe); [|assumption|intros; apply Hinner].
    assert (Hmod : (k mod (n * bpe) < n * bpe)%nat) by now apply Nat.mod_upper_bound.
    assert (Hi : (k mod (n * bpe) / bpe < n)%nat).
    { apply Nat.Div0.div_lt_upper_bound. lia. }
    rewrite nth_error_seq_lt by assumption. cbn [Nat.add].
    assert (Hj : ((k mod (n * bpe)) mod bpe < bpe)%nat) by now apply Nat.mod_upper_bound.
    rewrite (nth_error_map_Some _ _ _ _ (nth_error_seq_lt 0 bpe _ Hj)).
    cbn [Nat.add]. unfold producer_of, rank_of, epoch_of.
    assert (Hsplit : (k mod (n * bpe) = k mod bpe + bpe * ((k / bpe) mod n))%nat).
    { rewrite (Nat.mul_comm n bpe). apply Nat.Div0.mod_mul_r. }
    assert (E1 : (k mod (n * bpe) / bpe = (k / bpe) mod n)%nat).
    { rewrite Hsplit.
      replace (k mod bpe + bpe * ((k / bpe) mod n))%nat
        with ((k / bpe) mod n * bpe + k mod bpe)%nat by lia.
      rewrite Nat.div_add_l by assumption.
      rewrite (Nat.div_small (k mod bpe)) by now apply Nat.mod_upper_bound. lia. }
    assert (E2 : ((k mod (n * bpe)) mod bpe = k mod bpe)%nat).
    { rewrite Hsplit.
      replace (k mod bpe + bpe * ((k / bpe) mod n))%nat
        with (k mod bpe + (k / bpe) mod n * bpe)%nat by lia.
      rewrite Nat.Div0.mod_add. apply Nat.Div0.mod_mod. }
    now rewrite E1, E2.
Qed.

(** ** Exhaustive sampling *)





Section SlidingClaims.

Variable Raster : Type.
Variable make_timeline : list Segment -> Timeline.
Variable np_random_shuffle : list (Sample Raster) -> list (Sample Raster).


End SlidingClaims.


(** ** The corpus index on concrete recordings *)

(** C1: on a subset made of an eligible ten-second recording and of a
    two-second recording whose only annotated region is shorter than the
    3.2 s window, [initialize] does not complete: the first loop skips the
    short recording, and the second loop raises [KeyError] when it looks
    the recording up in [data_]. *)
Theorem initialize_short_file_raises :
  eligible_segments default_generator
    (annotated (cropped crop_intersection crop_annotation_intersection
                        short_file)) = [] /\
  dict_keys
    (scan_data (scan_files (list string) crop_intersection
                           crop_annotation_intersection default_generator
                           [long_file; short_file])) = ["db/long"] /\
  initialize_ref default_generator [long_file; short_file]
    = Err (KeyError "db/short").
Proof.
  split; [|split]; vm_compute; reflexivity.
Qed.

Lemma reference_index_built :
  initialize_ref window2 [long_file; medium_file] = Ok reference_index.
Proof. vm_compute. reflexivity. Qed.

Lemma segment_eligible_iff_strictly_longer_witness :
  ~ In (mkSegment 0 2) (eligible_segments window2 (annotated short_file)) /\
  (forall s : Segment,
      In s (segments long_datum) <->
      In s (annotated (current_file long_datum)) /\
      duration window2 < seg_duration s).
Proof.
  destruct (segment_eligible_iff_strictly_longer
              (list string) crop_intersection crop_annotation_intersection
              vocabulary_raster window2 [long_file; medium_file])
    as (_ & Hedge & _ & Hidx).
  split.
  - apply Hedge. reflexivity.
  - apply (Hidx reference_index) with (uri := "db/long");
      vm_compute; reflexivity.
Defined.

Lemma durations_sum_positive_witness :
  exists t : SamplingTable,
    sampling_table (data_ reference_index) = Ok t /\
    durations t
      = map (fun entry => datum_duration (snd entry)) (data_ reference_index) /\
    Forall (fun x => 0 < x) (durations t) /\
    0 < sum (durations t) /\
    sum (probabilities t) == 1.
Proof.
  apply (durations_sum_positive
           (list string) crop_intersection crop_annotation_intersection
           vocabulary_raster window2 [long_file; medium_file]).
  - reflexivity.
  - vm_compute. reflexivity.
  - vm_compute. discriminate.
Defined.

Lemma random_samples_weights_witness :
  exists t : SamplingTable,
    sampling_table
      (scan_data (scan_files (list string) crop_intersection
                             crop_annotation_intersection window2
                             [long_file; short_file; medium_file])) = Ok t /\
    uris t = ["db/long"; "db/medium"] /\
    ~ In (get_unique_identifier short_file) (uris t) /\
    exists d : Datum (list string),
      datum_duration d == 5 /\
      nth_error (probabilities t) 1 = Some (datum_duration d / sum (durations t)).
Proof.
  destruct (random_samples_weights
              (list string) crop_intersection crop_annotation_intersection
              vocabulary_raster window2 [long_file; short_file; medium_file])
    as (t & Ht & _ & Hu & _ & Hzero & Hweights).
  - discriminate.
  - exists t. split; [exact Ht|].
    assert (Huris : uris t = ["db/long"; "db/medium"])
      by (rewrite Hu; vm_compute; reflexivity).
    split; [exact Huris|]. split.
    + apply (Hzero short_file).
      * simpl. tauto.
      * vm_compute. reflexivity.
      * intros f' [<-|[<-|[<-|[]]]] Hid;
          try (vm_compute in Hid; discriminate).
        vm_compute. reflexivity.
    + destruct (Hweights 1%nat "db/medium") as (d & f & Hget & _ & _ & _ & _ & _ & Hp).
      * rewrite Huris. reflexivity.
      * exists d. split; [|exact Hp].
        vm_compute in Hget. injection Hget as <-. reflexivity.
Defined.

(** Over the ten-second and the five-second recordings the two
    probabilities are 2/3 and 1/3. *)
Example reference_probabilities :
  exists t : SamplingTable,
    sampling_table (data_ reference_index) = Ok t /\
    uris t = ["db/long"; "db/medium"] /\
    Forall2 Qeq (probabilities t) [2 # 3; 1 # 3].
Proof.
  eexists. split; [vm_compute; reflexivity|].
  split; [reflexivity|].
  repeat constructor.
Qed.

(** [__call__] serves that stream once the index is built and the number
    of batches per epoch is known; it has at least one generator unless
    [parallel] is negative. *)
Lemma call_served (Raster : Type) (crop : Timeline -> Segment -> Timeline)
      (crop_annotation : Annotation -> Segment -> Annotation)
      (one_hot_encoding : Annotation -> Timeline -> list string -> result Raster)
      (g : LabelingTaskGenerator) (p : Protocol) (rounds : nat)
      (idx : Index Raster) (bpe : Z) :
  initialize Raster crop crop_annotation one_hot_encoding g p = Ok idx ->
  batches_per_epoch g = Ok bpe ->
  call Raster crop crop_annotation one_hot_encoding g p rounds
    = Ok (served rounds (n_generators g) (Z.to_nat bpe)).
Proof.
  intros Hi Hb. unfold call. now rewrite Hi, Hb.
Qed.

Lemma n_generators_positive (g : LabelingTaskGenerator) :
  (0 <= parallel g)%Z -> (1 <= n_generators g)%nat.
Proof.
  unfold n_generators. destruct (Z.eqb_spec (parallel g) 0); lia.
Qed.

Lemma round_robin_epochs_witness :
  nth_error (served 2 3 2) 7 = Some (producer_of 3 2 7, rank_of 3 2 7).
Proof.
  destruct (round_robin_epochs 3 2 2) as [_ H].
  apply (H 7%nat). lia.
Defined.

Example served_two_rounds :
  served 2 3 2 =
    [(0, 0); (0, 1); (1, 0); (1, 1); (2, 0); (2, 1);
     (0, 2); (0, 3); (1, 2); (1, 3); (2, 2); (2, 3)]%nat.
Proof. reflexivity. Qed.

(** ** The labeling task *)

Section TaskClaims.

Variables Tensor Array Loss : Type.
Variable torch_tensor : Array -> result Tensor.
Variable view : Tensor -> result Tensor.
Variable to_device : Tensor -> Tensor.
Variable to_numpy : Tensor -> Array.

Let on_train_start_ := on_train_start Tensor Array Loss.
Let prepare_target_ := prepare_target Tensor Array Loss torch_tensor view to_numpy.
Let batch_loss_ :=
  batch_loss Tensor Array Loss torch_tensor view to_device to_numpy.
Let fit_ := fit Tensor Array Loss torch_tensor view to_device to_numpy.

Lemma on_train_start_cases (cls : TaskClass Tensor)
      (self : TaskState Tensor Array Loss) (model : Model Tensor Loss)
      (bpe : option nat) :
  (exists e, n_classes cls = Err e /\ on_train_start_ cls self model bpe = Err e) \/
  (exists n, n_classes cls = Ok n /\ model_n_classes model <> n /\
             on_train_start_ cls self model bpe
               = Err (ValueError "n_classes mismatch")) \/
  (n_classes cls = Ok (model_n_classes model) /\
   on_train_start_ cls self model bpe
     = Ok (mkTaskState Tensor Array Loss (Some (get_loss model))
                       (Some (mkDeque Array [] bpe))
                       (Some (mkDeque Array [] bpe)))).
Proof.
  unfold on_train_start_, on_train_start.
  destruct (n_classes cls) as [n|e]; simpl.
  - right. destruct (Z.eqb_spec (model_n_classes model) n) as [<-|Hne]; simpl.
    + right. now split.
    + left. exists n. now repeat split.
  - left. now exists e.
Qed.

(** C9: for a task with [n] classes, [on_train_start] raises
    [ValueError] exactly when the model's number of classes differs from
    [n], and raises nothing else: with a matching model it sets the loss
    function and the two logs. With a mismatched model the training run
    ends on that [ValueError] without a single call to [batch_loss]. *)
Theorem on_train_start_mismatch (cls : TaskClass Tensor)
        (model : Model Tensor Loss) (bpe : option nat) (n : Z) :
  n_classes cls = Ok n ->
  (forall self : TaskState Tensor Array Loss,
      (exists msg, on_train_start_ cls self model bpe = Err (ValueError msg))
      <-> model_n_classes model <> n) /\
  (forall (self : TaskState Tensor Array Loss) (e : exception),
      on_train_start_ cls self model bpe = Err e ->
      e = ValueError "n_classes mismatch") /\
  (forall self : TaskState Tensor Array Loss,
      model_n_classes model = n ->
      exists self', on_train_start_ cls self model bpe = Ok self' /\
                    loss_func_ self' = Some (get_loss model)) /\
  (forall (writer : bool) (batches : list (Batch Array)),
      model_n_classes model <> n ->
      fit_ cls model writer bpe batches
        = (O, Err (ValueError "n_classes mismatch"))).
Proof.
  intros Hn.
  assert (Hcases : forall self,
             (model_n_classes model <> n /\
              on_train_start_ cls self model bpe
                = Err (ValueError "n_classes mismatch")) \/
             (model_n_classes model = n /\
              exists self', on_train_start_ cls self model bpe = Ok self' /\
                            loss_func_ self' = Some (get_loss model))).
  { intros self.
    destruct (on_train_start_cases cls self model bpe)
      as [(e & He & _)|[(n' & Hn' & Hne & Hr)|(Hn' & Hr)]].
    - congruence.
    - left. split; [congruence | assumption].
    - right. split; [congruence|]. eexists. split; [exact Hr | reflexivity]. }
  split; [|split; [|split]].
  - intros self. destruct (Hcases self) as [[Hne Hr]|[Heq (self' & Hr & _)]];
      rewrite Hr.
    + split; [intros _; assumption | intros _; eauto].
    + split; [intros [msg [=]] | intros Hne; contradiction].
  - intros self e. destruct (Hcases self) as [[Hne Hr]|[Heq (self' & Hr & _)]];
      rewrite Hr; [now intros [= <-] | discriminate].
  - intros self Heq. destruct (Hcases self) as [[Hne _]|[_ H]];
      [contradiction | assumption].
  - intros writer batches Hne.
    unfold fit_, fit. fold on_train_start_.
    destruct (Hcases (fresh_task Tensor Array Loss))
      as [[_ Hr]|[Heq _]]; [now rewrite Hr | contradiction].
Qed.

(** Without a number of classes of its own (as in [LabelingTask]
    itself), the hook reports the error of the [n_classes] property. *)
Lemma on_train_start_abstract_task (self : TaskState Tensor Array Loss)
      (model : Model Tensor Loss) (bpe : option nat) :
  on_train_start_ (LabelingTask Tensor) self model bpe
    = Err (NotImplementedError n_classes_msg).
Proof. reflexivity. Qed.

Lemma prepare_target_keeps_loss_func (cls : TaskClass Tensor)
      (self self' : TaskState Tensor Array Loss) (batch : Batch Array)
      (fX fX' : Tensor) (writer : bool) (target : option Tensor) :
  prepare_target_ cls self batch fX writer = Ok (fX', target, self') ->
  loss_func_ self' = loss_func_ self.
Proof.
  unfold prepare_target_, prepare_target.
  destruct (task_type cls) as [[| | |]|e]; simpl; try discriminate.
  - destruct (torch_tensor (batch_y batch)); simpl; [|discriminate].
    destruct (view a); simpl; [|discriminate].
    destruct (n_classes cls); simpl; [|discriminate].
    destruct (view fX); simpl; [|discriminate].
    destruct writer.
    + destruct (log_y_pred_ self); simpl; [|discriminate].
      destruct (log_y_true_ self); simpl; [|discriminate].
      now intros [= _ _ <-].
    + now intros [= _ _ <-].
  - destruct (torch_tensor (batch_y batch)); simpl; [|discriminate].
    now intros [= _ _ <-].
  - destruct (torch_tensor (batch_y batch)); simpl; [|discriminate].
    now intros [= _ _ <-].
  - now intros [= _ _ <-].
Qed.

(** C10, as the code has it: a task that keeps the default [weight]
    ([None]) never gets a loss out of [batch_loss]. Whenever the call gets
    as far as the loss function (the input converts to a tensor, the
    model runs on it, the branch on the task type completes and binds a
    target, and [on_train_start] has set the loss function), it ends on
    the [AttributeError] of [None.to(device=device)]. *)
Theorem batch_loss_default_weight (cls : TaskClass Tensor) :
  weight cls = None ->
  (forall (self : TaskState Tensor Array Loss) (batch : Batch Array)
          (model : Model Tensor Loss) (writer : bool),
      exists e, batch_loss_ cls self batch model writer = Err e) /\
  (forall (self self' : TaskState Tensor Array Loss) (batch : Batch Array)
          (model : Model Tensor Loss) (writer : bool)
          (X fX fX' target : Tensor) (loss_func : LossFunc Tensor Loss),
      torch_tensor (batch_X batch) = Ok X ->
      forward model X = Ok fX ->
      prepare_target_ cls self batch fX writer = Ok (fX', Some target, self') ->
      loss_func_ self = Some loss_func ->
      batch_loss_ cls self batch model writer
        = Err (AttributeError "NoneType" "to")).
Proof.
  intros Hw. split.
  - intros self batch model writer.
    unfold batch_loss_, batch_loss. fold prepare_target_.
    destruct (torch_tensor (batch_X batch)) as [X|e]; simpl; [|eauto].
    destruct (forward model X) as [fX|e]; simpl; [|eauto].
    destruct (prepare_target_ cls self batch fX writer) as [[[fX' target] self']|e];
      simpl; [|eauto].
    destruct (loss_func_ self') as [lf|]; simpl; [|eauto].
    destruct target as [t|]; simpl; [|eauto].
    rewrite Hw. simpl. eauto.
  - intros self self' batch model writer X fX fX' target lf HX Hf Hp Hl.
    unfold batch_loss_, batch_loss. fold prepare_target_.
    rewrite HX. simpl. rewrite Hf. simpl. rewrite Hp. simpl.
    rewrite (prepare_target_keeps_loss_func _ _ _ _ _ _ _ _ Hp), Hl. simpl.
    rewrite Hw. reflexivity.
Qed.

End TaskClaims.

Lemma on_train_start_mismatch_witness :
  (exists msg,
      on_train_start_ref speech_task (fresh_task nat nat nat) (model_with 3) None
        = Err (ValueError msg)) /\
  fit_ref speech_task (model_with 3) false None [some_batch; some_batch]
    = (O, Err (ValueError "n_classes mismatch")) /\
  exists self',
    on_train_start_ref speech_task (fresh_task nat nat nat) (model_with 2) None
      = Ok self' /\
    loss_func_ self' = Some sum_loss.
Proof.
  destruct (on_train_start_mismatch nat nat nat
              (fun a => Ok a) (fun t => Ok t) (fun t => t) (fun t => t)
              speech_task (model_with 3) None 2%Z)
    as (Hiff & _ & _ & Hfit); [reflexivity|].
  destruct (on_train_start_mismatch nat nat nat
              (fun a => Ok a) (fun t => Ok t) (fun t => t) (fun t => t)
              speech_task (model_with 2) None 2%Z)
    as (_ & _ & Hok & _); [reflexivity|].
  split; [|split].
  - apply Hiff. discriminate.
  - apply Hfit. discriminate.
  - apply Hok. reflexivity.
Defined.

(** Not every task that keeps the default [weight] fails on an attribute
    error: [LabelingTask] itself keeps it, and its [batch_loss] ends on
    the [NotImplementedError] of [task_type], raised before [weight] is
    looked at. *)
Lemma batch_loss_attribute_error_counterexample :
  ~ (forall cls : TaskClass nat,
        weight cls = None ->
        forall (self : TaskState nat nat nat) (batch : Batch nat)
               (model : Model nat nat) (writer : bool),
        exists obj attr,
          batch_loss_ref cls self batch model writer
            = Err (AttributeError obj attr)).
Proof.
  intros H.
  destruct (H (LabelingTask nat) eq_refl (fresh_task nat nat nat) some_batch
              (model_with 2) false) as (obj & attr & E).
  vm_compute in E. discriminate.
Qed.

Example batch_loss_abstract_task :
  batch_loss_ref (LabelingTask nat) (fresh_task nat nat nat) some_batch
                 (model_with 2) false
    = Err (NotImplementedError task_type_msg).
Proof. reflexivity. Qed.

Lemma batch_loss_default_weight_witness :
  (exists e,
      batch_loss_ref regression_task (fresh_task nat nat nat) some_batch
                     (model_with 1) false = Err e) /\
  (forall self',
      on_train_start_ref regression_task (fresh_task nat nat nat)
                         (model_with 1) None = Ok self' ->
      batch_loss_ref regression_task self' some_batch (model_with 1) false
        = Err (AttributeError "NoneType" "to")).
Proof.
  destruct (batch_loss_default_weight nat nat nat
              (fun a => Ok a) (fun t => Ok t) (fun t => t) (fun t => t)
              regression_task eq_refl) as [Hnever Hattr].
  split.
  - apply Hnever.
  - intros self' Hstart. vm_compute in Hstart. injection Hstart as <-.
    eapply (Hattr _ _ some_batch (model_with 1) false 7%nat 7%nat 7%nat 1%nat
                  sum_loss); reflexivity.
Defined.

(** * Further properties of the generator *)

(** ** Sets and sorting *)

Lemma set_add_In (x y : string) (s : list string) :
  In y (set_add x s) <-> y = x \/ In y s.
Proof.
  induction s as [|z s IH]; simpl.
  - intuition.
  - destruct (String.eqb_spec z x) as [->|Hne]; simpl.
    + intuition.
    + rewrite IH. intuition.
Qed.

Lemma set_add_NoDup (x : string) (s : list string) :
  NoDup s -> NoDup (set_add x s).
Proof.
  induction s as [|z s IH]; simpl; intros H.
  - constructor; [intros [] | constructor].
  - inversion H as [|? ? Hz Hs]; subst.
    destruct (String.eqb_spec z x) as [->|Hne]; [assumption|].
    constructor; [|now apply IH].
    rewrite set_add_In. intros [->|Hin]; [now apply Hne | contradiction].
Qed.

Lemma set_update_In (xs s : list string) (y : string) :
  In y (set_update xs s) <-> In y xs \/ In y s.
Proof.
  unfold set_update. revert s.
  induction xs as [|x xs IH]; intros s; simpl.
  - intuition.
  - rewrite IH, set_add_In. intuition.
Qed.

Lemma set_update_NoDup (xs s : list string) :
  NoDup s -> NoDup (set_update xs s).
Proof.
  unfold set_update. revert s.
  induction xs as [|x xs IH]; intros s H; simpl; [assumption|].
  apply IH. now apply set_add_NoDup.
Qed.

Lemma insert_sorted_In (x y : string) (l : list string) :
  In y (insert_sorted x l) <-> y = x \/ In y l.
Proof.
  induction l as [|z l IH]; simpl.
  - intuition.
  - destruct (String.leb x z); simpl.
    + intuition.
    + rewrite IH. intuition.
Qed.

Lemma sorted_In (y : string) (s : list string) : In y (sorted s) <-> In y s.
Proof.
  unfold sorted. induction s as [|x s IH]; simpl.
  - reflexivity.
  - rewrite insert_sorted_In, IH. intuition.
Qed.

Lemma insert_sorted_NoDup (x : string) (l : list string) :
  ~ In x l -> NoDup l -> NoDup (insert_sorted x l).
Proof.
  induction l as [|z l IH]; simpl; intros Hx Hl.
  - constructor; [intros [] | constructor].
  - inversion Hl as [|? ? Hz Hl']; subst.
    destruct (String.leb x z).
    + constructor; [|assumption]. simpl. intuition.
    + constructor.
      * rewrite insert_sorted_In. intuition.
      * apply IH; intuition.
Qed.

Lemma sorted_NoDup (s : list string) : NoDup s -> NoDup (sorted s).
Proof.
  unfold sorted. induction 1 as [|x s Hx Hs IH]; simpl.
  - constructor.
  - apply insert_sorted_NoDup; [|assumption].
    fold (sorted s). now rewrite sorted_In.
Qed.

Lemma insert_sorted_Sorted (x : string) (l : list string) :
  Sorted (fun a b => String.leb a b = true) l ->
  Sorted (fun a b => String.leb a b = true) (insert_sorted x l).
Proof.
  induction l as [|z l IH]; simpl; intros H.
  - repeat constructor.
  - inversion H as [|? ? Hl Hhd]; subst.
    destruct (String.leb x z) eqn:E.
    + constructor; [assumption|]. now constructor.
    + constructor; [now apply IH|].
      assert (Hzx : String.leb z x = true).
      { destruct (String.leb_total x z); congruence. }
      destruct l as [|w l]; simpl.
      * now constructor.
      * inversion Hhd; subst. destruct (String.leb x w); now constructor.
Qed.

Lemma sorted_Sorted (s : list string) :
  Sorted (fun a b => String.leb a b = true) (sorted s).
Proof.
  unfold sorted. induction s as [|x s IH]; simpl.
  - constructor.
  - now apply insert_sorted_Sorted.
Qed.

Lemma dict_set_In_other {V : Type} (d : dict V) (k : string) (v : V)
      (u : string) (x : V) :
  NoDup (dict_keys d) -> In (u, x) (dict_set d k v) ->
  (u, x) = (k, v) \/ (u <> k /\ In (u, x) d).
Proof.
  induction d as [|[k0 v0] r IH]; simpl; intros Hnd Hin.
  - destruct Hin as [<-|[]]. now left.
  - inversion Hnd as [|? ? Hk0 Hr]; subst.
    destruct (String.eqb_spec k0 k) as [->|Hne]; simpl in Hin.
    + destruct Hin as [<-|Hin]; [now left|].
      right. split; [|now right].
      intros ->. apply Hk0. unfold dict_keys. apply in_map_iff.
      now exists (k, x).
    + destruct Hin as [[= <- <-]|Hin].
      * right. split; [assumption | now left].
      * destruct (IH Hr Hin) as [E|[Hu Hin']]; [now left|].
        right. split; [assumption | now right].
Qed.

(** ** More on the corpus index *)

Section IndexMore.

Variable Raster : Type.
Variable crop : Timeline -> Segment -> Timeline.
Variable crop_annotation : Annotation -> Segment -> Annotation.
Variable one_hot_encoding : Annotation -> Timeline -> list string -> result Raster.

Let cropped_ := cropped crop crop_annotation.
Let scan_file_ := scan_file Raster crop crop_annotation.
Let scan_files_ := scan_files Raster crop crop_annotation.
Let attach_y_ := attach_y Raster one_hot_encoding.
Let initialize_ := initialize Raster crop crop_annotation one_hot_encoding.

Lemma scan_file_sets (g : LabelingTaskGenerator) (st : Scan Raster)
      (f : ProtocolFile) :
  scan_labels (scan_file_ g st f)
    = set_update (annotation_labels (annotation (cropped_ f))) (scan_labels st) /\
  scan_databases (scan_file_ g st f)
    = set_add (database f) (scan_databases st) /\
  scan_warnings (scan_file_ g st f)
    = if is_precomputed (feature_extraction g)
         && negb (use_memmap (feature_extraction g))
      then scan_warnings st ++ [memmap_warning]
      else scan_warnings st.
Proof.
  unfold scan_file_, scan_file, cropped_. cbv zeta.
  destruct (eligible_segments g (annotated (cropped crop crop_annotation f)));
    repeat split; reflexivity.
Qed.

Lemma scan_fold_sets (g : LabelingTaskGenerator) (l : list ProtocolFile)
      (st : Scan Raster) :
  let st' := fold_left (scan_file_ g) l st in
  (NoDup (scan_labels st) -> NoDup (scan_labels st')) /\
  (NoDup (scan_databases st) -> NoDup (scan_databases st')) /\
  (forall x, In x (scan_labels st') <->
             In x (scan_labels st) \/
             exists f, In f l /\
                       In x (annotation_labels (annotation (cropped_ f)))) /\
  (forall x, In x (scan_databases st') <->
             In x (scan_databases st) \/ exists f, In f l /\ x = database f).
Proof.
  revert st. induction l as [|f l IH]; intros st; cbn [fold_left].
  - repeat split; try tauto; try (now left).
    + intros [H|(f & [] & _)]. assumption.
    + intros [H|(f & [] & _)]. assumption.
  - destruct (IH (scan_file_ g st f)) as (Hl & Hd & Hinl & Hind).
    destruct (scan_file_sets g st f) as (El & Ed & _).
    cbv zeta in *. repeat split.
    + intros H. apply Hl. rewrite El. now apply set_update_NoDup.
    + intros H. apply Hd. rewrite Ed. now apply set_add_NoDup.
    + rewrite Hinl, El, set_update_In.
      intros [[H|H]|(f' & Hf' & H)].
      * right. exists f. split; [now left | assumption].
      * now left.
      * right. exists f'. split; [now right | assumption].
    + rewrite Hinl, El, set_update_In.
      intros [H|(f' & [<-|Hf'] & H)].
      * left. now right.
      * left. now left.
      * right. now exists f'.
    + rewrite Hind, Ed, set_add_In.
      intros [[H|H]|(f' & Hf' & H)].
      * right. exists f. split; [now left | assumption].
      * now left.
      * right. exists f'. split; [now right | assumption].
    + rewrite Hind, Ed, set_add_In.
      intros [H|(f' & [<-|Hf'] & H)].
      * left. now right.
      * left. now left.
      * right. now exists f'.
Qed.

Lemma scan_files_sets (g : LabelingTaskGenerator) (p : Protocol) :
  NoDup (scan_labels (scan_files_ g p)) /\
  NoDup (scan_databases (scan_files_ g p)) /\
  (forall x, In x (scan_labels (scan_files_ g p)) <->
             exists f, In f p /\
                       In x (annotation_labels (annotation (cropped_ f)))) /\
  (forall x, In x (scan_databases (scan_files_ g p)) <->
             exists f, In f p /\ x = database f).
Proof.
  destruct (scan_fold_sets g p (mkScan Raster [] [] [] []))
    as (Hl & Hd & Hinl & Hind).
  unfold scan_files_, scan_files. fold scan_file_.
  cbn [scan_labels scan_databases] in *.
  repeat split.
  - apply Hl. constructor.
  - apply Hd. constructor.
  - intros H. apply Hinl in H as [[]|H]. exact H.
  - intros H. apply Hinl. now right.
  - intros H. apply Hind in H as [[]|H]. exact H.
  - intros H. apply Hind. now right.
Qed.

Lemma initialize_vocabularies (g : LabelingTaskGenerator) (p : Protocol)
      (idx : Index Raster) :
  initialize_ g p = Ok idx ->
  labels_ idx = sorted (scan_labels (scan_files_ g p)) /\
  databases_ idx = sorted (scan_databases (scan_files_ g p)).
Proof.
  unfold initialize_, initialize. fold (scan_files_ g p).
  destruct (foldM _ p (scan_data (scan_files_ g p))); simpl; [|discriminate].
  intros [= <-]. now split.
Qed.

(** The label vocabulary and the database list that [initialize] leaves
    on the generator are in ascending order, without duplicates, and
    hold exactly the labels of the cropped annotations, and the
    databases, of the files of the subset. *)
Theorem initialize_sorted_vocabulary (g : LabelingTaskGenerator)
        (p : Protocol) (idx : Index Raster) :
  initialize_ g p = Ok idx ->
  Sorted (fun a b => String.leb a b = true) (labels_ idx) /\
  NoDup (labels_ idx) /\
  (forall l : string,
      In l (labels_ idx) <->
      exists f, In f p /\ In l (annotation_labels (annotation (cropped_ f)))) /\
  Sorted (fun a b => String.leb a b = true) (databases_ idx) /\
  NoDup (databases_ idx) /\
  (forall db : string,
      In db (databases_ idx) <-> exists f, In f p /\ db = database f).
Proof.
  intros H. destruct (initialize_vocabularies g p idx H) as [-> ->].
  destruct (scan_files_sets g p) as (Hl & Hd & Hinl & Hind).
  repeat split.
  - apply sorted_Sorted.
  - now apply sorted_NoDup.
  - rewrite sorted_In. apply Hinl.
  - rewrite sorted_In. apply Hinl.
  - apply sorted_Sorted.
  - now apply sorted_NoDup.
  - rewrite sorted_In. apply Hind.
  - rewrite sorted_In. apply Hind.
Qed.

(** The memory warning is issued once per file of the subset when the
    features are precomputed and not memory-mapped, and never otherwise. *)
Theorem initialize_warnings (g : LabelingTaskGenerator) (p : Protocol) :
  scan_warnings (scan_files_ g p)
    = if is_precomputed (feature_extraction g)
         && negb (use_memmap (feature_extraction g))
      then repeat memmap_warning (List.length p)
      else [].
Proof.
  unfold scan_files_, scan_files.
  assert (H : forall l st,
             scan_warnings (fold_left (scan_file_ g) l st)
             = if is_precomputed (feature_extraction g)
                  && negb (use_memmap (feature_extraction g))
               then scan_warnings st ++ repeat memmap_warning (List.length l)
               else scan_warnings st).
  { induction l as [|f l IH]; intros st; cbn [fold_left].
    - destruct (_ && _); [now rewrite app_nil_r | reflexivity].
    - rewrite IH. destruct (scan_file_sets g st f) as (_ & _ & ->).
      destruct (_ && _); [|reflexivity].
      now rewrite <- app_assoc. }
  fold scan_file_. rewrite H. reflexivity.
Qed.

Lemma attach_all_y_set (labels : list string) (l : list ProtocolFile)
      (done : list string) (data data' : dict (Datum Raster)) :
  NoDup (dict_keys data) ->
  (forall u d, In (u, d) data -> In u done -> y d <> None) ->
  foldM (attach_y_ labels) l data = Ok data' ->
  forall u d, In (u, d) data' ->
              In u (map get_unique_identifier l) \/ In u done -> y d <> None.
Proof.
  revert done data. induction l as [|f l IH]; intros done data Hnd Hdone; simpl.
  - intros [= <-] u d Hin [[]|Hu]. now apply (Hdone u).
  - destruct (attach_y_ labels data f) as [d1|e] eqn:E; simpl; [|discriminate].
    intros H u d Hin Hu.
    destruct (attach_y_Ok Raster one_hot_encoding _ _ _ _ E)
      as (raster & d0 & _ & Hget & ->).
    eapply (IH (get_unique_identifier f :: done));
      [ apply dict_set_keys_NoDup; exact Hnd | | exact H | exact Hin | ].
    + intros u' d' Hin' Hu'.
      destruct (dict_set_In_other _ _ _ _ _ Hnd Hin') as [[= -> ->]|[Hne Hold]].
      * discriminate.
      * destruct Hu' as [<-|Hu']; [now contradiction Hne|].
        now apply (Hdone u').
    + simpl. tauto.
Qed.

Lemma index_keys_from_protocol (g : LabelingTaskGenerator) (p : Protocol)
      (idx : Index Raster) (k : string) :
  initialize_ g p = Ok idx ->
  In k (dict_keys (data_ idx)) ->
  exists f, In f p /\ get_unique_identifier f = k.
Proof.
  intros H Hin.
  destruct (initialize_index _ _ _ _ _ _ _ H) as ((Hw & Hnd & Hp) & Hk & Hall).
  unfold dict_keys in Hin.
  apply in_map_iff in Hin as [[u d] [<- Hin]].
  rewrite Forall_forall in Hw, Hp.
  destruct (Hw _ Hin) as (Hid & _). destruct (Hp _ Hin) as (f & Hf & Hc).
  exists f. split; [assumption|]. simpl in *. rewrite Hid, Hc. reflexivity.
Qed.

Lemma index_entries_have_y (g : LabelingTaskGenerator) (p : Protocol)
      (idx : Index Raster) (uri : string) (d : Datum Raster) :
  initialize_ g p = Ok idx -> In (uri, d) (data_ idx) -> y d <> None.
Proof.
  intros H Hin.
  destruct (index_keys_from_protocol g p idx uri H) as (f & Hf & <-).
  { unfold dict_keys. apply in_map_iff. now exists (uri, d). }
  unfold initialize_, initialize in H.
  destruct (foldM _ p _) as [data|e] eqn:E; simpl in H; [|discriminate].
  injection H as <-. simpl in *.
  destruct (scan_files_inv Raster crop crop_annotation g p) as (_ & Hnd0 & _).
  apply (attach_all_y_set _ _ [] _ _ Hnd0
           (fun _ _ _ (F : In _ []) => match F with end) E _ d Hin).
  left. now apply in_map.
Qed.

(** When [initialize] returns, the keys of [data_] are distinct and are
    exactly the identifiers of the files of the subset, and every entry
    has its label raster ['y']. *)
Theorem initialize_complete (g : LabelingTaskGenerator) (p : Protocol)
        (idx : Index Raster) :
  initialize_ g p = Ok idx ->
  NoDup (dict_keys (data_ idx)) /\
  (forall k : string,
      In k (dict_keys (data_ idx)) <->
      exists f, In f p /\ get_unique_identifier f = k) /\
  (forall (uri : string) (d : Datum Raster),
      dict_get (data_ idx) uri = Some d -> y d <> None).
Proof.
  intros H.
  destruct (initialize_index _ _ _ _ _ _ _ H) as ((Hw & Hnd & Hp) & Hk & Hall).
  split; [assumption|]. split.
  - intros k. split; [now apply (index_keys_from_protocol g p idx k)|].
    intros (f & Hf & <-). rewrite Forall_forall in Hall. now apply Hall.
  - intros uri d Hget.
    apply (index_entries_have_y g p idx uri d H).
    now apply dict_get_In.
Qed.

End IndexMore.

Lemma initialize_sorted_vocabulary_witness :
  labels_ reference_index = ["alice"; "bob"] /\
  Sorted (fun a b => String.leb a b = true) (labels_ reference_index) /\
  NoDup (databases_ reference_index).
Proof.
  destruct (initialize_sorted_vocabulary
              (list string) crop_intersection crop_annotation_intersection
              vocabulary_raster window2 [long_file; medium_file]
              reference_index)
    as (Hs & _ & _ & _ & Hd & _).
  - vm_compute. reflexivity.
  - split; [reflexivity|]. split; assumption.
Defined.

Lemma initialize_complete_witness :
  NoDup (dict_keys (data_ reference_index)) /\
  y long_datum <> None.
Proof.
  destruct (initialize_complete
              (list string) crop_intersection crop_annotation_intersection
              vocabulary_raster window2 [long_file; medium_file]
              reference_index)
    as (Hnd & _ & Hy).
  - vm_compute. reflexivity.
  - split; [assumption|].
    apply (Hy "db/long"). vm_compute. reflexivity.
Defined.

(** ** Random samples *)

Section SamplingMore.

Variable Raster : Type.
Variable crop : Timeline -> Segment -> Timeline.
Variable crop_annotation : Annotation -> Segment -> Annotation.
Variable one_hot_encoding : Annotation -> Timeline -> list string -> result Raster.

Let initialize_ := initialize Raster crop crop_annotation one_hot_encoding.


End SamplingMore.


(** ** More on the batch stream *)


Lemma filter_flat_map {A B : Type} (q : B -> bool) (f : A -> list B) (l : list A) :
  filter q (flat_map f l) = flat_map (fun x => filter q (f x)) l.
Proof.
  induction l as [|x l IH]; simpl; [reflexivity|].
  now rewrite filter_app, IH.
Qed.

Lemma seq_from (a n : nat) : seq a n = map (fun j => (a + j)%nat) (seq 0 n).
Proof.
  revert a. induction n as [|n IH]; intros a; simpl; [reflexivity|].
  f_equal; [lia|]. rewrite (IH (S a)), <- (seq_shift n 0), map_map.
  apply map_ext. intros j. lia.
Qed.

(** The epochs of one generator, put end to end, are its own stream from
    the first batch on. *)
Lemma epochs_of_generator (i bpe rounds : nat) :
  flat_map (fun r => map (fun j => (i, r * bpe + j)%nat) (seq 0 bpe))
           (seq 0 rounds)
  = map (pair i) (seq 0 (rounds * bpe)).
Proof.
  induction rounds as [|r IH]; [reflexivity|].
  rewrite seq_S, flat_map_app, IH. cbn [flat_map Nat.add]. rewrite app_nil_r.
  replace (S r * bpe)%nat with (r * bpe + bpe)%nat by lia.
  rewrite seq_app, map_app. f_equal. cbn [Nat.add].
  rewrite (seq_from (r * bpe) bpe), map_map. reflexivity.
Qed.

Lemma select_generator {B : Type} (h : nat -> list B) (i : nat) (l : list nat) :
  NoDup l ->
  flat_map (fun x => if Nat.eqb x i then h x else []) l
  = if in_dec Nat.eq_dec i l then h i else [].
Proof.
  intros Hnd. induction l as [|x l IH]; [reflexivity|].
  inversion Hnd as [|? ? Hx Hl]; subst.
  cbn [flat_map]. rewrite (IH Hl).
  destruct (in_dec Nat.eq_dec i (x :: l)) as [Hin|Hin];
    destruct (in_dec Nat.eq_dec i l) as [Hin'|Hin'];
    destruct (Nat.eqb_spec x i) as [E|Hne]; subst;
    try reflexivity; try (now rewrite app_nil_r);
    exfalso; simpl in *; intuition congruence.
Qed.

Lemma filter_epoch (i i' r bpe : nat) :
  filter (fun s : Served => Nat.eqb (fst s) i)
         (map (fun j => (i', r * bpe + j)%nat) (seq 0 bpe))
  = if Nat.eqb i' i then map (fun j => (i', r * bpe + j)%nat) (seq 0 bpe) else [].
Proof.
  induction (seq 0 bpe) as [|j l IH]; simpl.
  - now destruct (Nat.eqb i' i).
  - rewrite IH. now destruct (Nat.eqb i' i).
Qed.

(** Among the batches served, those of one generator are the batches of
    that generator's own stream, each exactly once and in order: no batch
    is skipped, repeated or overtaken, and after [rounds] rounds every
    generator has served [rounds * bpe] batches. *)
Theorem served_per_generator_in_order (rounds n bpe i : nat) :
  (i < n)%nat ->
  filter (fun s : Served => Nat.eqb (fst s) i) (served rounds n bpe)
  = map (pair i) (seq 0 (rounds * bpe)).
Proof.
  intros Hi. rewrite served_blocks, filter_flat_map.
  rewrite <- epochs_of_generator.
  apply flat_map_ext_In. intros r _.
  rewrite filter_flat_map.
  rewrite (flat_map_ext_In _ _ _ (fun i' _ => filter_epoch i i' r bpe)).
  pose proof (select_generator
                (fun x => map (fun j => (x, r * bpe + j)%nat) (seq 0 bpe)) i
                (seq 0 n) (seq_NoDup n 0)) as Hsel.
  cbv beta in Hsel. etransitivity; [exact Hsel|].
  destruct (in_dec Nat.eq_dec i (seq 0 n)) as [_|Hn]; [reflexivity|].
  exfalso. apply Hn. apply in_seq. lia.
Qed.

Lemma served_per_generator_in_order_witness :
  filter (fun s : Served => Nat.eqb (fst s) 1) (served 2 3 2)
  = [(1, 0); (1, 1); (1, 2); (1, 3)]%nat.
Proof.
  apply (served_per_generator_in_order 2 3 2 1). lia.
Defined.

(** With [parallel] set to 0 or 1 there is a single generator and the
    stream is that generator's own stream, batch after batch. *)
Theorem single_generator_stream (g : LabelingTaskGenerator) (rounds bpe : nat) :
  parallel g = 0%Z \/ parallel g = 1%Z ->
  served rounds (n_generators g) bpe = map (pair O) (seq 0 (rounds * bpe)).
Proof.
  intros H.
  assert (Hn : n_generators g = 1%nat).
  { unfold n_generators. destruct H as [-> | ->]; reflexivity. }
  rewrite Hn, served_blocks, <- epochs_of_generator.
  apply flat_map_ext_In. intros r _. cbn [seq flat_map]. apply app_nil_r.
Qed.

Lemma single_generator_stream_witness :
  served 2 (n_generators (with_parallel default_generator 0)) 3
  = [(0, 0); (0, 1); (0, 2); (0, 3); (0, 4); (0, 5)]%nat.
Proof.
  apply (single_generator_stream (with_parallel default_generator 0) 2 3).
  now left.
Defined.


Section StreamMore.

Variable Raster : Type.
Variable crop : Timeline -> Segment -> Timeline.
Variable crop_annotation : Annotation -> Segment -> Annotation.
Variable one_hot_encoding : Annotation -> Timeline -> list string -> result Raster.

Let cropped_ := cropped crop crop_annotation.
Let initialize_ := initialize Raster crop crop_annotation one_hot_encoding.



End StreamMore.



(** When a label only occurs past the end of the audio, it is cropped
    out of the vocabulary and [one_hot_encoding] fails on the file in
    the second loop, before the short file is looked up. *)
Example initialize_label_past_the_end :
  initialize_ref default_generator [overrun_file; short_file]
  = Err (ValueError "'carol' is not in list").
Proof. vm_compute. reflexivity. Qed.

(** * Further properties of the task *)

Section TaskMore.

Variables Tensor Array Loss : Type.
Variable torch_tensor : Array -> result Tensor.
Variable view : Tensor -> result Tensor.
Variable to_device : Tensor -> Tensor.
Variable to_numpy : Tensor -> Array.

Let on_train_start_ := on_train_start Tensor Array Loss.
Let prepare_target_ := prepare_target Tensor Array Loss torch_tensor view to_numpy.
Let batch_loss_ :=
  batch_loss Tensor Array Loss torch_tensor view to_device to_numpy.
Let train_batches_ :=
  train_batches Tensor Array Loss torch_tensor view to_device to_numpy.
Let fit_ := fit Tensor Array Loss torch_tensor view to_device to_numpy.

(** For a regression or a multi-label task, [batch_loss] is the loss
    function applied to the model's output as it is, to the labels of the
    batch as a tensor and to the weight moved to the device; the task is
    left as it was, with or without a writer, and the number of classes
    is not read. *)
Theorem batch_loss_regression_multilabel (cls : TaskClass Tensor)
        (self : TaskState Tensor Array Loss) (batch : Batch Array)
        (model : Model Tensor Loss) (writer : bool)
        (X fX target w : Tensor) (loss_func : LossFunc Tensor Loss) :
  task_type cls = Ok TASK_REGRESSION \/
  task_type cls = Ok TASK_MULTI_LABEL_CLASSIFICATION ->
  torch_tensor (batch_X batch) = Ok X ->
  forward model X = Ok fX ->
  torch_tensor (batch_y batch) = Ok target ->
  loss_func_ self = Some loss_func ->
  weight cls = Some w ->
  batch_loss_ cls self batch model writer
    = (loss <- loss_func fX target (to_device w) ;; Ok (loss, self)).
Proof.
  intros Hk HX Hf Hy Hl Hw.
  unfold batch_loss_, batch_loss, prepare_target.
  rewrite HX. cbn [bind]. rewrite Hf. cbn [bind].
  destruct Hk as [-> | ->]; cbn [bind]; rewrite Hy; cbn [bind];
    rewrite Hl; cbn [getattr bind]; rewrite Hw; reflexivity.
Qed.

(** A task type that is none of the three constants leaves [target]
    unbound: once the input is converted, the model has run and the loss
    function is set, [batch_loss] ends on [UnboundLocalError], whatever
    the weight. *)
Theorem batch_loss_unknown_task_type (cls : TaskClass Tensor)
        (self : TaskState Tensor Array Loss) (batch : Batch Array)
        (model : Model Tensor Loss) (writer : bool)
        (X fX : Tensor) (loss_func : LossFunc Tensor Loss) :
  task_type cls = Ok TASK_OTHER ->
  torch_tensor (batch_X batch) = Ok X ->
  forward model X = Ok fX ->
  loss_func_ self = Some loss_func ->
  batch_loss_ cls self batch model writer = Err (UnboundLocalError "target").
Proof.
  intros Hk HX Hf Hl.
  unfold batch_loss_, batch_loss, prepare_target.
  rewrite HX. cbn [bind]. rewrite Hf. cbn [bind]. rewrite Hk. cbn [bind].
  rewrite Hl. reflexivity.
Qed.

Lemma prepare_target_cases (cls : TaskClass Tensor)
      (self self' : TaskState Tensor Array Loss) (batch : Batch Array)
      (fX fX' : Tensor) (writer : bool) (target : option Tensor) :
  prepare_target_ cls self batch fX writer = Ok (fX', target, self') ->
  (task_type cls = Ok TASK_CLASSIFICATION /\ writer = true /\
   exists pred true_ a b,
     log_y_pred_ self = Some pred /\ log_y_true_ self = Some true_ /\
     self' = mkTaskState Tensor Array Loss (loss_func_ self)
                         (Some (deque_append Array pred a))
                         (Some (deque_append Array true_ b))) \/
  ((task_type cls <> Ok TASK_CLASSIFICATION \/ writer = false) /\ self' = self).
Proof.
  unfold prepare_target_, prepare_target.
  destruct (task_type cls) as [[| | |]|e]; simpl; try discriminate.
  - destruct (torch_tensor (batch_y batch)) as [yt|]; simpl; [|discriminate].
    destruct (view yt); simpl; [|discriminate].
    destruct (n_classes cls); simpl; [|discriminate].
    destruct (view fX) as [fXv|]; simpl; [|discriminate].
    destruct writer.
    + destruct (log_y_pred_ self) as [pred|]; simpl; [|discriminate].
      destruct (log_y_true_ self) as [true_|]; simpl; [|discriminate].
      intros [= _ _ <-]. left. repeat split.
      exists pred, true_, (to_numpy fXv), (to_numpy yt). now repeat split.
    + intros [= _ _ <-]. right. split; [now right | reflexivity].
  - destruct (torch_tensor (batch_y batch)); simpl; [|discriminate].
    intros [= _ _ <-]. right. split; [left; discriminate | reflexivity].
  - destruct (torch_tensor (batch_y batch)); simpl; [|discriminate].
    intros [= _ _ <-]. right. split; [left; discriminate | reflexivity].
  - intros [= _ _ <-]. right. split; [left; discriminate | reflexivity].
Qed.

Lemma batch_loss_Ok_inv (cls : TaskClass Tensor)
      (self self' : TaskState Tensor Array Loss) (batch : Batch Array)
      (model : Model Tensor Loss) (writer : bool) (loss : Loss) :
  batch_loss_ cls self batch model writer = Ok (loss, self') ->
  exists fX fX' target,
    prepare_target_ cls self batch fX writer = Ok (fX', target, self') /\
    loss_func_ self' <> None.
Proof.
  unfold batch_loss_, batch_loss. fold prepare_target_.
  destruct (torch_tensor (batch_X batch)) as [X|]; simpl; [|discriminate].
  destruct (forward model X) as [fX|]; simpl; [|discriminate].
  destruct (prepare_target_ cls self batch fX writer)
    as [[[fX' target] self1]|] eqn:E; simpl; [|discriminate].
  destruct (loss_func_ self1) as [lf|] eqn:El; simpl; [|discriminate].
  destruct target as [t|]; simpl; [|discriminate].
  destruct (weight cls); simpl; [|discriminate].
  destruct (lf fX' t (to_device t0)); simpl; [|discriminate].
  intros [= _ <-]. exists fX, fX', (Some t). split; [assumption|].
  rewrite El. discriminate.
Qed.

(** Before [on_train_start] has set the loss function, no call to
    [batch_loss] returns a loss; when the branch on the task type gets
    through, the failure is the [AttributeError] on [loss_func_]. *)
Theorem batch_loss_before_on_train_start (cls : TaskClass Tensor)
        (self : TaskState Tensor Array Loss) (batch : Batch Array)
        (model : Model Tensor Loss) (writer : bool) :
  loss_func_ self = None ->
  (exists e, batch_loss_ cls self batch model writer = Err e) /\
  (forall X fX fX' target self',
      torch_tensor (batch_X batch) = Ok X ->
      forward model X = Ok fX ->
      prepare_target_ cls self batch fX writer = Ok (fX', target, self') ->
      batch_loss_ cls self batch model writer
        = Err (AttributeError "LabelingTask" "loss_func_")).
Proof.
  intros Hl. split.
  - destruct (batch_loss_ cls self batch model writer) as [[loss self']|e] eqn:E;
      [|eauto].
    exfalso.
    destruct (batch_loss_Ok_inv _ _ _ _ _ _ _ E) as (fX & fX' & t & Hp & Hne).
    apply Hne.
    rewrite (prepare_target_keeps_loss_func
               Tensor Array Loss torch_tensor view to_numpy _ _ _ _ _ _ _ _ Hp).
    exact Hl.
  - intros X fX fX' target self' HX Hf Hp.
    unfold batch_loss_, batch_loss. fold prepare_target_.
    rewrite HX. cbn [bind]. rewrite Hf. cbn [bind]. rewrite Hp. cbn [bind].
    rewrite (prepare_target_keeps_loss_func
               Tensor Array Loss torch_tensor view to_numpy _ _ _ _ _ _ _ _ Hp).
    rewrite Hl. reflexivity.
Qed.

Lemma deque_append_bounded (d : deque Array) (x : Array) (m : nat) :
  maxlen Array d = Some m ->
  (List.length (items Array d) <= m)%nat ->
  maxlen Array (deque_append Array d x) = Some m /\
  List.length (items Array (deque_append Array d x))
    = Nat.min (S (List.length (items Array d))) m.
Proof.
  intros Hm Hl. unfold deque_append. rewrite Hm. cbn [maxlen items].
  split; [reflexivity|].
  rewrite length_skipn, last_length. lia.
Qed.

(** What the two logs look like when [m] bounds them and each holds [k]
    arrays. *)
Let logs_hold (m k : nat) (self : TaskState Tensor Array Loss) : Prop :=
  exists pred true_,
    log_y_pred_ self = Some pred /\ log_y_true_ self = Some true_ /\
    maxlen Array pred = Some m /\ maxlen Array true_ = Some m /\
    List.length (items Array pred) = k /\
    List.length (items Array true_) = k.

(** Whether a batch is logged: only by a classification task, with a
    writer. *)
Let logging (cls : TaskClass Tensor) (writer : bool) : bool :=
  match task_type cls with
  | Ok TASK_CLASSIFICATION => writer
  | _ => false
  end.

Lemma batch_loss_logs (cls : TaskClass Tensor)
      (self self' : TaskState Tensor Array Loss) (batch : Batch Array)
      (model : Model Tensor Loss) (writer : bool) (loss : Loss) (m k : nat) :
  batch_loss_ cls self batch model writer = Ok (loss, self') ->
  (k <= m)%nat -> logs_hold m k self ->
  logs_hold m (if logging cls writer then Nat.min (S k) m else k) self'.
Proof.
  intros E Hk (pred & true_ & Hp & Ht & Hmp & Hmt & Hlp & Hlt).
  destruct (batch_loss_Ok_inv _ _ _ _ _ _ _ E) as (fX & fX' & t & Hprep & _).
  destruct (prepare_target_cases _ _ _ _ _ _ _ _ Hprep)
    as [(Hc & -> & pred' & true' & a & b & Hp' & Ht' & ->)|[Hno ->]].
  - unfold logging. rewrite Hc.
    rewrite Hp in Hp'. injection Hp' as <-.
    rewrite Ht in Ht'. injection Ht' as <-.
    destruct (deque_append_bounded pred a m Hmp) as [Hm1 Hl1]; [lia|].
    destruct (deque_append_bounded true_ b m Hmt) as [Hm2 Hl2]; [lia|].
    exists (deque_append Array pred a), (deque_append Array true_ b).
    cbn [log_y_pred_ log_y_true_]. repeat split; try assumption.
    + now rewrite Hl1, Hlp.
    + now rewrite Hl2, Hlt.
  - assert (Hlog : logging cls writer = false).
    { unfold logging. destruct Hno as [Hno | ->].
      - destruct (task_type cls) as [[| | |]|]; try reflexivity.
        now contradiction Hno.
      - destruct (task_type cls) as [[| | |]|]; reflexivity. }
    rewrite Hlog. exists pred, true_. now repeat split.
Qed.

Lemma train_batches_logs (cls : TaskClass Tensor) (model : Model Tensor Loss)
      (writer : bool) (batches : list (Batch Array)) (m : nat) :
  forall (self self' : TaskState Tensor Array Loss) (calls0 calls k : nat),
    train_batches_ cls self model writer batches calls0 = (calls, Ok self') ->
    (k <= m)%nat -> logs_hold m k self ->
    calls = (calls0 + List.length batches)%nat /\
    logs_hold m (if logging cls writer
                 then Nat.min (k + List.length batches) m else k) self'.
Proof.
  induction batches as [|b rest IH]; intros self self' calls0 calls k H Hk Hlogs.
  - simpl in H. injection H as <- <-. cbn [List.length].
    rewrite !Nat.add_0_r. split; [reflexivity|].
    destruct (logging cls writer); [|assumption].
    now replace (Nat.min k m) with k by lia.
  - cbn [train_batches_ train_batches] in H. fold batch_loss_ in H.
    destruct (batch_loss_ cls self b model writer) as [[loss self1]|e] eqn:E;
      [|discriminate].
    fold train_batches_ in H.
    pose proof (batch_loss_logs _ _ _ _ _ _ _ m k E Hk Hlogs) as Hlogs1.
    destruct (logging cls writer) eqn:Hlog.
    + destruct (IH _ _ _ _ (Nat.min (S k) m) H) as [Hc Hl];
        [lia | assumption|].
      split; [cbn [List.length]; lia|].
      cbn [List.length].
      replace (Nat.min (k + S (List.length rest)) m)
        with (Nat.min (Nat.min (S k) m + List.length rest) m) by lia.
      exact Hl.
    + destruct (IH _ _ _ _ k H) as [Hc Hl]; [lia | assumption|].
      split; [cbn [List.length]; lia | exact Hl].
Qed.

(** A training run that goes through all its batches has called
    [batch_loss] once per batch, and leaves two logs of the same length,
    never longer than the [batches_per_epoch] given to [on_train_start]:
    a classification task with a writer has logged every batch and kept
    the most recent ones; any other run has logged nothing. *)
Theorem fit_logs_bounded (cls : TaskClass Tensor) (model : Model Tensor Loss)
        (writer : bool) (m : nat) (batches : list (Batch Array))
        (calls : nat) (self' : TaskState Tensor Array Loss) :
  fit_ cls model writer (Some m) batches = (calls, Ok self') ->
  calls = List.length batches /\
  exists pred true_,
    log_y_pred_ self' = Some pred /\ log_y_true_ self' = Some true_ /\
    List.length (items Array pred) = List.length (items Array true_) /\
    (List.length (items Array pred) <= m)%nat /\
    (task_type cls = Ok TASK_CLASSIFICATION -> writer = true ->
     List.length (items Array pred) = Nat.min (List.length batches) m) /\
    (task_type cls <> Ok TASK_CLASSIFICATION \/ writer = false ->
     items Array pred = [] /\ items Array true_ = []).
Proof.
  unfold fit_, fit. fold on_train_start_.
  destruct (on_train_start_cases Tensor Array Loss cls
              (fresh_task Tensor Array Loss) model (Some m))
    as [(e & _ & Hr)|[(n & _ & _ & Hr)|(_ & Hr)]];
    fold on_train_start_ in Hr; rewrite Hr; try discriminate.
  fold train_batches_. intros H.
  destruct (train_batches_logs cls model writer batches m _ _ _ _ O H)
    as [Hc (pred & true_ & Hp & Ht & _ & _ & Hlp & Hlt)].
  - lia.
  - do 2 eexists. cbn [log_y_pred_ log_y_true_ maxlen items].
    repeat split; reflexivity.
  - split; [exact Hc|]. exists pred, true_.
    split; [assumption|]. split; [assumption|].
    split; [congruence|].
    split; [rewrite Hlp; destruct (logging cls writer); lia|].
    split.
    + intros Hk ->. rewrite Hlp. unfold logging. rewrite Hk. reflexivity.
    + intros Hno.
      assert (Hlog : logging cls writer = false).
      { unfold logging. destruct Hno as [Hno | ->].
        - destruct (task_type cls) as [[| | |]|]; try reflexivity.
          now contradiction Hno.
        - destruct (task_type cls) as [[| | |]|]; reflexivity. }
      rewrite Hlog in Hlp, Hlt.
      split; now apply length_zero_iff_nil.
Qed.

End TaskMore.

Lemma batch_loss_regression_multilabel_witness :
  batch_loss_ref weighted_regression_task logged_task some_batch
                 (model_with 1) true
  = Ok (9%nat, logged_task).
Proof.
  apply (batch_loss_regression_multilabel nat nat nat
           (fun a => Ok a) (fun t => Ok t) (fun t => t) (fun t => t)
           weighted_regression_task logged_task some_batch (model_with 1) true
           7%nat 7%nat 1%nat 1%nat sum_loss);
    try reflexivity.
  now left.
Defined.

Lemma batch_loss_unknown_task_type_witness :
  batch_loss_ref unknown_task logged_task some_batch (model_with 1) false
  = Err (UnboundLocalError "target").
Proof.
  apply (batch_loss_unknown_task_type nat nat nat
           (fun a => Ok a) (fun t => Ok t) (fun t => t) (fun t => t)
           unknown_task logged_task some_batch (model_with 1) false
           7%nat 7%nat sum_loss);
    reflexivity.
Defined.

Lemma batch_loss_before_on_train_start_witness :
  batch_loss_ref weighted_regression_task (fresh_task nat nat nat) some_batch
                 (model_with 1) false
  = Err (AttributeError "LabelingTask" "loss_func_").
Proof.
  destruct (batch_loss_before_on_train_start nat nat nat
              (fun a => Ok a) (fun t => Ok t) (fun t => t) (fun t => t)
              weighted_regression_task (fresh_task nat nat nat) some_batch
              (model_with 1) false)
    as [_ H]; [reflexivity|].
  eapply (H 7%nat 7%nat); reflexivity.
Defined.

Lemma fit_logs_bounded_witness :
  exists pred true_,
    log_y_pred_ trained_task = Some pred /\
    log_y_true_ trained_task = Some true_ /\
    List.length (items nat pred) = 2%nat /\
    List.length (items nat true_) = 2%nat.
Proof.
  destruct (fit_logs_bounded nat nat nat
              (fun a => Ok a) (fun t => Ok t) (fun t => t) (fun t => t)
              weighted_speech_task (model_with 2) true 2%nat
              [some_batch; some_batch; some_batch] 3%nat trained_task)
    as (_ & pred & true_ & Hp & Ht & Heq & _ & Hlen & _).
  - vm_compute. reflexivity.
  - exists pred, true_. split; [assumption|]. split; [assumption|].
    assert (H2 : List.length (items nat pred) = 2%nat)
      by (apply Hlen; reflexivity).
    split; [assumption | congruence].
Defined.

(** ** The end of an epoch *)

Section EpochEndMore.

Variables Tensor Array Loss Matrix Eer : Type.
Variable np_hstack : list Array -> result Matrix.
Variable reshape : Matrix -> result Matrix.
Variable det_curve_eer : Matrix -> Matrix -> Z -> Eer.

Let on_epoch_end_ :=
  on_epoch_end Tensor Array Loss Matrix Eer np_hstack reshape det_curve_eer.

(** [on_epoch_end] sends nothing and raises nothing when there is no
    writer (even on a task without a task type or without logs) or
    when the task is not a classification task. For a classification
    task with a writer whose logs stack and reshape, it sends a single
    ['train/eer'] when there are fewer than 3 classes, and otherwise one
    ['train/eer/k'] per class k = 0 .. n_classes - 1, in that order. *)
Theorem on_epoch_end_scalars (cls : TaskClass Tensor)
        (self : TaskState Tensor Array Loss) :
  on_epoch_end_ cls self false = Ok [] /\
  (forall kind, task_type cls = Ok kind -> kind <> TASK_CLASSIFICATION ->
                on_epoch_end_ cls self true = Ok []) /\
  (forall (n : Z) (pred true_ : deque Array) (mp mt mp' mt' : Matrix),
      task_type cls = Ok TASK_CLASSIFICATION ->
      n_classes cls = Ok n ->
      log_y_pred_ self = Some pred -> log_y_true_ self = Some true_ ->
      np_hstack (items Array pred) = Ok mp ->
      np_hstack (items Array true_) = Ok mt ->
      reshape mp = Ok mp' -> reshape mt = Ok mt' ->
      exists scalars,
        on_epoch_end_ cls self true = Ok scalars /\
        map fst scalars
          = (if (n <? 3)%Z then [train_eer]
             else map (fun k => train_eer_class (Z.of_nat k))
                      (seq 0 (Z.to_nat n))) /\
        List.length scalars = (if (n <? 3)%Z then 1%nat else Z.to_nat n) /\
        forall tag e, In (tag, e) scalars ->
          e = det_curve_eer mt' mp'
                (match tag with train_eer => 0%Z | train_eer_class k => k end)).
Proof.
  split; [reflexivity|]. split.
  - intros kind Hk Hne. unfold on_epoch_end_, on_epoch_end. rewrite Hk.
    destruct kind; try reflexivity. now contradiction Hne.
  - intros n pred true_ mp mt mp' mt' Hk Hn Hp Ht Hsp Hst Hrp Hrt.
    unfold on_epoch_end_, on_epoch_end. rewrite Hk. cbn [negb bind].
    rewrite Hp. cbn [getattr bind]. rewrite Hsp. cbn [bind].
    rewrite Ht. cbn [getattr bind]. rewrite Hst. cbn [bind].
    rewrite Hn. cbn [bind]. rewrite Hrp. cbn [bind]. rewrite Hrt. cbn [bind].
    destruct (n <? 3)%Z.
    + eexists. split; [reflexivity|]. cbn [map fst List.length].
      repeat split. intros tag e [[= <- <-]|[]]. reflexivity.
    + eexists. split; [reflexivity|].
      rewrite map_map, length_map, length_seq. cbn [fst].
      repeat split. intros tag e Hin.
      apply in_map_iff in Hin as (k & [= <- <-] & _). reflexivity.
Qed.

End EpochEndMore.

Lemma on_epoch_end_scalars_witness :
  (exists scalars,
      on_epoch_end_ref (task_with_classes 2) logged_task true = Ok scalars /\
      map fst scalars = [train_eer]) /\
  (exists scalars,
      on_epoch_end_ref (task_with_classes 4) logged_task true = Ok scalars /\
      map fst scalars
        = [train_eer_class 0; train_eer_class 1;
           train_eer_class 2; train_eer_class 3]).
Proof.
  split.
  - destruct (on_epoch_end_scalars nat nat nat (list nat) Z
                (fun arrays => match arrays with
                   | [] => Err (ValueError "need at least one array to concatenate")
                   | _ :: _ => Ok arrays
                   end)
                (fun m => Ok m) (fun _ _ k => k)
                (task_with_classes 2) logged_task) as (_ & _ & H).
    destruct (H 2%Z (mkDeque nat [4%nat] (Some 2%nat))
                (mkDeque nat [1%nat] (Some 2%nat))
                [4%nat] [1%nat] [4%nat] [1%nat])
      as (scalars & Hs & Ht & _); try reflexivity.
    exists scalars. split; assumption.
  - destruct (on_epoch_end_scalars nat nat nat (list nat) Z
                (fun arrays => match arrays with
                   | [] => Err (ValueError "need at least one array to concatenate")
                   | _ :: _ => Ok arrays
                   end)
                (fun m => Ok m) (fun _ _ k => k)
                (task_with_classes 4) logged_task) as (_ & _ & H).
    destruct (H 4%Z (mkDeque nat [4%nat] (Some 2%nat))
                (mkDeque nat [1%nat] (Some 2%nat))
                [4%nat] [1%nat] [4%nat] [1%nat])
      as (scalars & Hs & Ht & _); try reflexivity.
    exists scalars. split; assumption.
Defined.

(** * Properties of the application *)

(** ** Batches per epoch in [train] *)

(** [train] reads its configuration in a fixed order and divides twice:
    a missing ['duration'] is a [KeyError] even when ['step'] is missing
    too, then a missing ['step'] is one, then a zero step or a zero batch
    size is a [ZeroDivisionError]. *)
Theorem train_steps_errors (sequences : SequencesConfig) (train_total : Q) :
  (dict_get sequences "duration" = None ->
   train_steps sequences train_total = Err (KeyError "duration")) /\
  (forall d, dict_get sequences "duration" = Some d ->
             dict_get sequences "step" = None ->
             train_steps sequences train_total = Err (KeyError "step")) /\
  (forall d step, dict_get sequences "duration" = Some d ->
                  dict_get sequences "step" = Some step ->
                  step == 0 \/
                  match dict_get sequences "batch_size" with
                  | Some b => b == 0
                  | None => False
                  end ->
                  train_steps sequences train_total = Err ZeroDivisionError).
Proof.
  unfold train_steps, train_config, dict_getitem.
  split; [|split].
  - intros ->. reflexivity.
  - intros d -> ->. reflexivity.
  - intros d step -> -> H. cbn [bind]. unfold steps_per_epoch.
    destruct H as [H|H].
    + now rewrite (py_truediv_zero _ _ H).
    + destruct (Qeq_dec step 0) as [E|E];
        [now rewrite (py_truediv_zero _ _ E)|].
      rewrite (py_truediv_ok _ _ E). cbn [bind].
      destruct (dict_get sequences "batch_size") as [b|]; [|contradiction].
      now rewrite (py_truediv_zero _ _ H).
Qed.

Lemma train_steps_errors_witness :
  train_steps [("batch_size", 32)] 1000 = Err (KeyError "duration") /\
  train_steps [("duration", 2); ("step", 0)] 1000 = Err ZeroDivisionError.
Proof.
  split.
  - apply (train_steps_errors [("batch_size", 32)] 1000). reflexivity.
  - destruct (train_steps_errors [("duration", 2); ("step", 0)] 1000)
      as (_ & _ & H).
    apply (H 2 0); try reflexivity. left. reflexivity.
Defined.

Example train_steps_reference : train_steps reference_sequences 100000 = Ok 16%Z.
Proof. reflexivity. Qed.

(** ** The memory of [tune] *)

Lemma zdict_get_set {V : Type} (d : zdict V) (k k' : Z) (v : V) :
  zdict_get (zdict_set d k v) k'
  = if (k =? k')%Z then Some v else zdict_get d k'.
Proof.
  induction d as [|[k0 v0] r IH]; simpl.
  - reflexivity.
  - destruct (Z.eqb_spec k0 k) as [->|Hne]; simpl.
    + destruct (Z.eqb_spec k k'); reflexivity.
    + rewrite IH. destruct (Z.eqb_spec k0 k') as [->|_]; [|reflexivity].
      destruct (Z.eqb_spec k k'); [congruence | reflexivity].
Qed.

Section TuneMore.

Variable tune_binarizer : Z -> BinarizeParams * Q.
Variable repr_key : Z -> string.

Let objective_function_ := objective_function tune_binarizer.
Let run_trials_ := run_trials tune_binarizer.
Let callback_ := callback repr_key.

(** The two dictionaries hold the outcome of [tune_binarizer] for the
    epochs it was run on, each once, and nothing else. *)
Let memo_ok (memo : TuneMemo) : Prop :=
  NoDup (tuned_epochs memo) /\
  forall x,
    (In x (tuned_epochs memo) ->
     zdict_get (best_metric memo) x = Some (snd (tune_binarizer x)) /\
     zdict_get (best_params memo) x = Some (fst (tune_binarizer x))) /\
    (~ In x (tuned_epochs memo) ->
     zdict_get (best_metric memo) x = None /\
     zdict_get (best_params memo) x = None).

Lemma objective_function_ok (memo : TuneMemo) (x : Z) :
  memo_ok memo ->
  fst (objective_function_ memo x) = snd (tune_binarizer x) /\
  memo_ok (snd (objective_function_ memo x)) /\
  (forall y, In y (tuned_epochs (snd (objective_function_ memo x))) <->
             y = x \/ In y (tuned_epochs memo)) /\
  (In x (tuned_epochs memo) -> snd (objective_function_ memo x) = memo).
Proof.
  intros [Hnd Hmemo].
  unfold objective_function_, objective_function.
  destruct (in_dec Z.eq_dec x (tuned_epochs memo)) as [Hin|Hnin].
  - destruct (proj1 (Hmemo x) Hin) as [Hm _]. rewrite Hm. cbn [fst snd].
    split; [reflexivity|]. split; [split; assumption|]. split.
    + intros y. split; [intros Hy; now right | intros [->|Hy]; assumption].
    + reflexivity.
  - destruct (proj2 (Hmemo x) Hnin) as [Hm _]. rewrite Hm.
    destruct (tune_binarizer x) as [bp metric] eqn:Etb. cbn [fst snd].
    split; [reflexivity|]. split; [|split].
    + split.
      * cbn [tuned_epochs]. apply NoDup_app; [assumption | | ].
        -- constructor; [intros [] | constructor].
        -- intros a Ha [<-|[]]. contradiction.
      * intros y. cbn [tuned_epochs best_metric best_params].
        rewrite !zdict_get_set, in_app_iff. split.
        -- intros [Hy|[<-|[]]].
           ++ destruct (Z.eqb_spec x y) as [->|_]; [contradiction|].
              apply Hmemo, Hy.
           ++ rewrite Z.eqb_refl, Etb. now split.
        -- intros Hy. destruct (Z.eqb_spec x y) as [->|_].
           ++ exfalso. apply Hy. right. now left.
           ++ apply Hmemo. intros Hy'. apply Hy. now left.
    + intros y. cbn [tuned_epochs]. rewrite in_app_iff. simpl. intuition.
    + intros Hin. contradiction.
Qed.

Lemma run_trials_ok (trials : list Z) (memo : TuneMemo) :
  memo_ok memo ->
  fst (run_trials_ memo trials) = map (fun x => snd (tune_binarizer x)) trials /\
  memo_ok (snd (run_trials_ memo trials)) /\
  (forall y, In y (tuned_epochs (snd (run_trials_ memo trials))) <->
             In y trials \/ In y (tuned_epochs memo)).
Proof.
  revert memo. induction trials as [|x rest IH]; intros memo Hok.
  - cbn. repeat split; try apply Hok; intuition.
  - cbn [run_trials_ run_trials]. fold objective_function_.
    destruct (objective_function_ok memo x Hok) as (Hv & Hok1 & Hin1 & _).
    destruct (objective_function_ memo x) as [metric memo1]. cbn [fst snd] in *.
    fold run_trials_.
    destruct (IH memo1 Hok1) as (Hvs & Hok2 & Hin2).
    destruct (run_trials_ memo1 rest) as [metrics memo2]. cbn [fst snd] in *.
    split; [cbn [map]; congruence|]. split; [assumption|].
    intros y. rewrite Hin2, Hin1. simpl. intuition.
Qed.

(** Over any sequence of trials of one search, [tune_binarizer] is run
    once on each distinct epoch and never again on an epoch already
    tried; every trial still gets the metric of its epoch. After the
    trials, [callback] on any tried epoch finds the thresholds tuned for
    that very epoch and saves them with it; on an epoch that was not
    tried it raises [KeyError]. *)
Theorem tune_runs_each_epoch_once (trials : list Z) :
  let metrics := fst (run_trials_ empty_memo trials) in
  let memo := snd (run_trials_ empty_memo trials) in
  metrics = map (fun x => snd (tune_binarizer x)) trials /\
  NoDup (tuned_epochs memo) /\
  (forall x, In x (tuned_epochs memo) <-> In x trials) /\
  (forall x epochs start end_bound fun_,
      In x trials ->
      callback_ memo epochs start end_bound x fun_
      = Ok (mkTuneState epochs start end_bound fun_ x
                        (onset (fst (tune_binarizer x)))
                        (offset_ (fst (tune_binarizer x))))) /\
  (forall x epochs start end_bound fun_,
      ~ In x trials ->
      callback_ memo epochs start end_bound x fun_
      = Err (KeyError (repr_key x))).
Proof.
  assert (Hempty : memo_ok empty_memo).
  { split; [constructor|]. intros x. split; [intros [] | now split]. }
  destruct (run_trials_ok trials empty_memo Hempty) as (Hv & [Hnd Hmemo] & Hin).
  cbv zeta. split; [assumption|]. split; [assumption|].
  assert (Hin' : forall x, In x (tuned_epochs (snd (run_trials_ empty_memo trials)))
                           <-> In x trials).
  { intros x. rewrite Hin. simpl. intuition. }
  split; [assumption|]. split.
  - intros x epochs start end_bound fun_ Hx.
    unfold callback_, callback.
    destruct (proj1 (Hmemo x) (proj2 (Hin' x) Hx)) as [_ ->]. reflexivity.
  - intros x epochs start end_bound fun_ Hx.
    unfold callback_, callback.
    destruct (proj2 (Hmemo x)) as [_ ->]; [|reflexivity].
    intros H. apply Hx. now apply Hin'.
Qed.

End TuneMore.

Lemma tune_runs_each_epoch_once_witness :
  tuned_epochs (snd (run_trials reference_tuner empty_memo [9; 3; 9; 7; 3]%Z))
    = [9; 3; 7]%Z /\
  callback (fun _ => "(7,)")
           (snd (run_trials reference_tuner empty_memo [9; 3; 9; 7; 3]%Z))
           10 1 9 7 0
    = Ok (mkTuneState 10 1 9 0 7
                      (onset (fst (reference_tuner 7)))
                      (offset_ (fst (reference_tuner 7)))).
Proof.
  destruct (tune_runs_each_epoch_once reference_tuner (fun _ => "(7,)")
              [9; 3; 9; 7; 3]%Z) as (_ & _ & _ & H & _).
  split; [reflexivity|].
  apply H. simpl. tauto.
Defined.

(** ** Directories *)

Lemma list_ascii_of_string_app (a b : string) :
  list_ascii_of_string (a ++ b)%string
  = list_ascii_of_string a ++ list_ascii_of_string b.
Proof.
  induction a as [|c a IH]; simpl; [reflexivity|]. now rewrite IH.
Qed.

Lemma append_assoc_string (a b c : string) :
  ((a ++ b) ++ c)%string = (a ++ b ++ c)%string.
Proof.
  induction a as [|x a IH]; simpl; [reflexivity|]. now rewrite IH.
Qed.

Lemma is_sep_slash : is_sep "/"%char = true.
Proof. reflexivity. Qed.

Lemma drop_while_all {A : Type} (q : A -> bool) (l r : list A) :
  forallb q l = true -> drop_while q (l ++ r) = drop_while q r.
Proof.
  induction l as [|x l IH]; simpl; [reflexivity|].
  destruct (q x); simpl; [assumption | discriminate].
Qed.

Lemma forallb_rev {A : Type} (q : A -> bool) (l : list A) :
  forallb q (rev l) = forallb q l.
Proof.
  induction l as [|x l IH]; simpl; [reflexivity|].
  rewrite forallb_app, IH. simpl. rewrite andb_true_r. apply andb_comm.
Qed.

Lemma rstrip_sep_last (d : list ascii) (c : ascii) :
  is_sep c = false -> rstrip_sep (d ++ [c]) = d ++ [c].
Proof.
  intros Hc. unfold rstrip_sep. rewrite rev_app_distr. simpl. rewrite Hc.
  change (c :: rev d) with (rev [c] ++ rev d).
  now rewrite <- rev_app_distr, rev_involutive.
Qed.

(** [dirname] of a directory joined to a name without separator. *)
Lemma dirname_chars_join (dir name : list ascii) :
  forallb (fun c => negb (is_sep c)) name = true ->
  dirname_chars (dir ++ "/"%char :: name)
  = if forallb is_sep dir then dir ++ ["/"%char] else rstrip_sep dir.
Proof.
  intros Hname. unfold dirname_chars.
  assert (Hhead : rev (drop_while (fun c => negb (is_sep c))
                                  (rev (dir ++ "/"%char :: name)))
                  = dir ++ ["/"%char]).
  { rewrite rev_app_distr. cbn [rev]. rewrite <- app_assoc.
    rewrite drop_while_all by now rewrite forallb_rev.
    cbn [app drop_while]. rewrite is_sep_slash. cbn [negb rev].
    now rewrite rev_involutive. }
  rewrite Hhead.
  destruct (dir ++ ["/"%char]) as [|c0 l0] eqn:E;
    [destruct dir; discriminate|].
  rewrite <- E. rewrite forallb_app. cbn [forallb].
  rewrite is_sep_slash, !andb_true_r.
  destruct (forallb is_sep dir); [reflexivity|].
  unfold rstrip_sep. rewrite rev_app_distr. cbn [rev app drop_while].
  now rewrite is_sep_slash.
Qed.

Lemma dirname_join (dir name : string) :
  sep_free name = true ->
  dirname (dir ++ "/" ++ name)
  = if only_seps dir then (dir ++ "/")%string else rstrip dir.
Proof.
  intros Hname. unfold dirname, only_seps, rstrip.
  rewrite !list_ascii_of_string_app. cbn [list_ascii_of_string app].
  rewrite (dirname_chars_join _ _ Hname).
  destruct (forallb is_sep (list_ascii_of_string dir)); [|reflexivity].
  rewrite <- (string_of_list_ascii_of_string (dir ++ "/")%string).
  now rewrite list_ascii_of_string_app.
Qed.

Lemma sep_free_app (a b : string) :
  sep_free (a ++ b) = sep_free a && sep_free b.
Proof.
  unfold sep_free. now rewrite list_ascii_of_string_app, forallb_app.
Qed.

Lemma only_seps_app (a b : string) :
  only_seps (a ++ b) = only_seps a && only_seps b.
Proof.
  unfold only_seps. now rewrite list_ascii_of_string_app, forallb_app.
Qed.

Lemma rstrip_last (d : string) (c : ascii) :
  is_sep c = false ->
  rstrip (d ++ String c "") = (d ++ String c "")%string /\
  only_seps (d ++ String c "") = false.
Proof.
  intros Hc. unfold rstrip, only_seps.
  rewrite list_ascii_of_string_app. cbn [list_ascii_of_string].
  rewrite rstrip_sep_last by assumption. split.
  - rewrite <- (string_of_list_ascii_of_string (d ++ String c "")%string).
    now rewrite list_ascii_of_string_app.
  - rewrite forallb_app. cbn [forallb]. rewrite Hc.
    now rewrite andb_false_r.
Qed.

(** [from_tune_dir] finds back the training directory that [tune] built
    the tuning directory from, for a protocol and a subset without
    separator: exactly so when the training directory does not end with
    a separator, without its trailing separators when it has some, and as
    the directory followed by a separator when it is empty or made of
    separators only. *)
Theorem from_tune_dir_of_tune_dir (train_dir protocol subset : string) :
  sep_free protocol = true -> sep_free subset = true ->
  (forall d c, train_dir = (d ++ String c "")%string -> is_sep c = false ->
               from_tune_dir (TUNE_DIR train_dir protocol subset) = train_dir) /\
  (only_seps train_dir = false ->
   from_tune_dir (TUNE_DIR train_dir protocol subset) = rstrip train_dir) /\
  (only_seps train_dir = true ->
   from_tune_dir (TUNE_DIR train_dir protocol subset)
   = (train_dir ++ "/")%string).
Proof.
  intros Hp Hs.
  assert (Hname : sep_free (protocol ++ "." ++ subset) = true).
  { now rewrite !sep_free_app, Hp, Hs. }
  assert (Hfirst : dirname (TUNE_DIR train_dir protocol subset)
                   = (train_dir ++ "/" ++ "tune")%string).
  { unfold TUNE_DIR.
    assert (Hsplit : (train_dir ++ "/tune/" ++ protocol ++ "." ++ subset)%string
                     = (((train_dir ++ "/tun") ++ String "e" "")
                          ++ "/" ++ (protocol ++ "." ++ subset))%string).
    { rewrite !append_assoc_string. reflexivity. }
    rewrite Hsplit, (dirname_join _ _ Hname).
    destruct (rstrip_last (train_dir ++ "/tun") "e" eq_refl) as [Hr Ho].
    rewrite Ho, Hr. rewrite !append_assoc_string. reflexivity. }
  assert (Hboth : from_tune_dir (TUNE_DIR train_dir protocol subset)
                  = if only_seps train_dir
                    then (train_dir ++ "/")%string else rstrip train_dir).
  { unfold from_tune_dir. rewrite Hfirst. now apply dirname_join. }
  split; [|split].
  - intros d c -> Hc. rewrite Hboth.
    destruct (rstrip_last d c Hc) as [Hr Ho]. now rewrite Ho, Hr.
  - intros Ho. now rewrite Hboth, Ho.
  - intros Ho. now rewrite Hboth, Ho.
Qed.

Lemma from_tune_dir_of_tune_dir_witness :
  from_tune_dir
    (TUNE_DIR "exp/train/Etape.SpeakerDiarization.TV.train"
              "Etape.SpeakerDiarization.TV" "development")
  = "exp/train/Etape.SpeakerDiarization.TV.train".
Proof.
  destruct (from_tune_dir_of_tune_dir
              "exp/train/Etape.SpeakerDiarization.TV.train"
              "Etape.SpeakerDiarization.TV" "development")
    as (H & _ & _); [reflexivity | reflexivity |].
  apply (H "exp/train/Etape.SpeakerDiarization.TV.trai" "n"%char); reflexivity.
Defined.

Example from_tune_dir_trailing_separator :
  from_tune_dir (TUNE_DIR "exp/" "P" "dev") = "exp".
Proof. reflexivity. Qed.

(** ** The logs of the task *)

Section TaskLogs.

Variables Tensor Array Loss : Type.
Variable torch_tensor : Array -> result Tensor.
Variable view : Tensor -> result Tensor.
Variable to_device : Tensor -> Tensor.
Variable to_numpy : Tensor -> Array.

Let on_train_start_ := on_train_start Tensor Array Loss.
Let batch_loss_ :=
  batch_loss Tensor Array Loss torch_tensor view to_device to_numpy.


End TaskLogs.

